(** * Seeing-helper: reminder and navigation event engine

    A shallow embedding of the three rule-governed pieces of the app:

    - [parseAndAddSchedule] (src/pages/Index.tsx): voice transcript to
      schedule item, through three regular expressions and one global
      [replace];
    - [checkSchedules] (src/pages/Index.tsx): the periodic reminder check
      with its two one-shot flags [reminded] and [notified];
    - [checkAndAnnounceDirection] (the navigation page,
      src/unnamed/part_001): the proximity triggered turn-by-turn
      announcer.

    JavaScript strings are modelled as Rocq [string]s of ASCII code units
    (the speech transcript is lower-cased English text); numbers that the
    code keeps integral are modelled in [Z]. *)

From Stdlib Require Import ZArith List Ascii String Lia Bool.
From Stdlib Require Import DecimalString Sorted Reals Lra.
From stdpp Require Import base option list.
Import ListNotations.

Local Open Scope string_scope.
Local Open Scope Z_scope.

(* ===================================================================== *)
(** ** JavaScript string primitives used by the code *)
(* ===================================================================== *)

Module JsString.

Definition code (a : ascii) : nat := nat_of_ascii a.

(** [\d] : the ten ASCII digits. *)
Definition isDigit (a : ascii) : bool :=
  (48 <=? code a)%nat && (code a <=? 57)%nat.

(** [\s] and [trim] : tab, line feed, vertical tab, form feed, carriage
    return and space (the ASCII members of WhiteSpace/LineTerminator). *)
Definition isSpace (a : ascii) : bool :=
  ((9 <=? code a)%nat && (code a <=? 13)%nat) || (code a =? 32)%nat.

Definition isLower (a : ascii) : bool :=
  (97 <=? code a)%nat && (code a <=? 122)%nat.

Definition isUpper (a : ascii) : bool :=
  (65 <=? code a)%nat && (code a <=? 90)%nat.

(** [toUpperCase] / [toLowerCase] on one ASCII code unit. *)
Definition toUpperChar (a : ascii) : ascii :=
  if isLower a then ascii_of_nat (code a - 32) else a.

Definition toLowerChar (a : ascii) : ascii :=
  if isUpper a then ascii_of_nat (code a + 32) else a.

Fixpoint toLowerCase (s : string) : string :=
  match s with
  | EmptyString => EmptyString
  | String a s' => String (toLowerChar a) (toLowerCase s')
  end.

Fixpoint toUpperCase (s : string) : string :=
  match s with
  | EmptyString => EmptyString
  | String a s' => String (toUpperChar a) (toUpperCase s')
  end.

(** [s.charAt(0)] : the first code unit as a string, or the empty string. *)
Definition charAt0 (s : string) : string :=
  match s with
  | EmptyString => EmptyString
  | String a _ => String a EmptyString
  end.

(** [s.slice(1)]. *)
Definition slice1 (s : string) : string :=
  match s with
  | EmptyString => EmptyString
  | String _ s' => s'
  end.

Fixpoint trimStart (s : string) : string :=
  match s with
  | EmptyString => EmptyString
  | String a s' => if isSpace a then trimStart s' else s
  end.

(** [trimEnd] drops the trailing white space: a character is kept when
    something non-blank follows it or it is itself non-blank. *)
Fixpoint trimEnd (s : string) : string :=
  match s with
  | EmptyString => EmptyString
  | String a s' =>
      match trimEnd s' with
      | EmptyString => if isSpace a then EmptyString else String a EmptyString
      | t => String a t
      end
  end.

(** [s.trim()]. *)
Definition trim (s : string) : string := trimEnd (trimStart s).

Fixpoint repeatChar (a : ascii) (n : nat) : string :=
  match n with
  | O => EmptyString
  | S n' => String a (repeatChar a n')
  end.

(** [s.padStart(n, c)] with a one-character filler. *)
Definition padStart (s : string) (n : nat) (c : ascii) : string :=
  repeatChar c (n - String.length s) ++ s.

(** [String(z)] for an integer-valued number. *)
Definition ofZ (z : Z) : string := NilZero.string_of_int (Z.to_int z).

Definition digitValue (a : ascii) : Z := Z.of_nat (code a) - 48.

Fixpoint digitsPrefix (s : string) (acc : Z) : Z :=
  match s with
  | String a s' => if isDigit a then digitsPrefix s' (10 * acc + digitValue a) else acc
  | EmptyString => acc
  end.

(** [parseInt(s)] on the strings the parser hands to it, which are
    capture groups made of digits or of the letters of am/pm: the value
    of the leading run of digits, [None] (NaN) when there is none. *)
Definition parseInt (s : string) : option Z :=
  match s with
  | String a _ => if isDigit a then Some (digitsPrefix s 0) else None
  | EmptyString => None
  end.

(** The prefix of [s] that was consumed when [rest] is what remains. *)
Fixpoint take (n : nat) (s : string) : string :=
  match n, s with
  | S n', String a s' => String a (take n' s')
  | _, _ => EmptyString
  end.

Definition consumed (s rest : string) : string :=
  take (String.length s - String.length rest) s.

End JsString.

(* ===================================================================== *)
(** ** Regular expressions with JavaScript's backtracking semantics *)
(* ===================================================================== *)

Module Regex.
Import JsString.

(** One-character atoms.  All patterns of the program carry flag [i], so
    a literal is compared after case folding. *)
Inductive atom : Type :=
| Lit (c : ascii)
| Digit                       (* \d *)
| Space.                      (* \s *)

Inductive regex : Type :=
| Eps
| Chr (c : atom)
| Seq (r1 r2 : regex)
| Alt (r1 r2 : regex)         (* r1|r2, left alternative first *)
| Opt (r : regex)             (* r?  greedy *)
| Star (c : atom)             (* c*  greedy, over a one-character atom *)
| Group (i : nat) (r : regex) (* the i-th capturing parenthesis *).

Definition atomMatches (c : atom) (a : ascii) : bool :=
  match c with
  | Lit x => Ascii.eqb (toUpperChar x) (toUpperChar a)
  | Digit => isDigit a
  | Space => isSpace a
  end.

(** Capture slots: group number and captured text.  A group that did not
    take part in the match has no entry ([undefined]). *)
Definition captures := list (nat * string).

Fixpoint getCapture (i : nat) (caps : captures) : option string :=
  match caps with
  | [] => None
  | (j, s) :: caps' => if Nat.eqb i j then Some s else getCapture i caps'
  end.

Definition outcome := option (string * captures).
Definition kont := string -> captures -> outcome.

Definition orElse (a : outcome) (b : unit -> outcome) : outcome :=
  match a with
  | Some x => Some x
  | None => b tt
  end.

Fixpoint starMatch (c : atom) (s : string) (caps : captures) (k : kont) : outcome :=
  match s with
  | String a s' =>
      if atomMatches c a
      then orElse (starMatch c s' caps k) (fun _ => k s caps)
      else k s caps
  | EmptyString => k s caps
  end.

(** [rmatch r s caps k] : match [r] at the head of [s], then continue
    with [k] on the rest; failure of [k] backtracks into [r]. *)
Fixpoint rmatch (r : regex) (s : string) (caps : captures) (k : kont) : outcome :=
  match r with
  | Eps => k s caps
  | Chr c =>
      match s with
      | String a s' => if atomMatches c a then k s' caps else None
      | EmptyString => None
      end
  | Seq r1 r2 => rmatch r1 s caps (fun s1 caps1 => rmatch r2 s1 caps1 k)
  | Alt r1 r2 => orElse (rmatch r1 s caps k) (fun _ => rmatch r2 s caps k)
  | Opt r1 => orElse (rmatch r1 s caps k) (fun _ => k s caps)
  | Star c => starMatch c s caps k
  | Group i r1 =>
      rmatch r1 s caps (fun s1 caps1 => k s1 ((i, consumed s s1) :: caps1))
  end.

(** A match anchored at the head of [s]: the rest of the input and the
    captures. *)
Definition matchHere (r : regex) (s : string) : outcome :=
  rmatch r s [] (fun rest caps => Some (rest, caps)).

(** [s.match(r)] for a pattern without flag [g]: the leftmost match. *)
Fixpoint exec (r : regex) (s : string) : option captures :=
  match matchHere r s with
  | Some (_, caps) => Some caps
  | None =>
      match s with
      | String _ s' => exec r s'
      | EmptyString => None
      end
  end.

(** [s.replace(r, '')] for a pattern with flag [g]: scan left to right,
    delete every match, resume after it.  [skip] counts the characters
    of the current match still to delete.  An empty match deletes
    nothing and the scan moves on by one character. *)
Fixpoint removeFrom (r : regex) (skip : nat) (s : string) : string :=
  match s with
  | EmptyString => EmptyString
  | String a s' =>
      match skip with
      | S n => removeFrom r n s'
      | O =>
          match matchHere r s with
          | Some (rest, _) =>
              match (String.length s - String.length rest)%nat with
              | S n => removeFrom r n s'
              | O => String a (removeFrom r O s')
              end
          | None => String a (removeFrom r O s')
          end
      end
  end.

Definition removeAll (r : regex) (s : string) : string := removeFrom r 0 s.

(** Pattern builders. *)
Fixpoint lit (s : string) : regex :=
  match s with
  | EmptyString => Eps
  | String a EmptyString => Chr (Lit a)
  | String a s' => Seq (Chr (Lit a)) (lit s')
  end.

Fixpoint alts (rs : list regex) : regex :=
  match rs with
  | [] => Eps
  | [r] => r
  | r :: rs' => Alt r (alts rs')
  end.

Fixpoint seqs (rs : list regex) : regex :=
  match rs with
  | [] => Eps
  | [r] => r
  | r :: rs' => Seq r (seqs rs')
  end.

Definition digit12 : regex := Seq (Chr Digit) (Opt (Chr Digit)).   (* \d{1,2} *)
Definition digit2 : regex := Seq (Chr Digit) (Chr Digit).          (* \d{2}   *)
Definition digits1 : regex := Seq (Chr Digit) (Star Digit).        (* \d+     *)
Definition spaces0 : regex := Star Space.                          (* \s*     *)
Definition spaces1 : regex := Seq (Chr Space) (Star Space).        (* \s+     *)
Definition ampm : regex := Alt (lit "am") (lit "pm").              (* am|pm   *)

End Regex.

(* ===================================================================== *)
(** ** The schedule item (interface ScheduleItem, src/pages/Index.tsx) *)
(* ===================================================================== *)

(** Optional fields are [option]s: [None] is an absent ([undefined])
    field and, for [reminderMinutes], also NaN.  [reminderMinutes],
    [reminded] and [notified] are only ever read through JavaScript
    truthiness, which does not tell these apart. *)
Record ScheduleItem : Type := mkScheduleItem {
  id : string;
  title : string;
  time : string;
  description : option string;
  reminderMinutes : option Z;
  reminded : option bool;
  notified : option bool
}.

(* ===================================================================== *)
(** ** parseAndAddSchedule (src/pages/Index.tsx, lines 59-122) *)
(* ===================================================================== *)

Module TranscriptParser.
Import JsString Regex.

(** A JavaScript number that is an integer or NaN ([None]). *)
Definition jsnum := option Z.

Definition numToString (n : jsnum) : string :=
  match n with
  | Some z => ofZ z
  | None => "NaN"
  end.

Definition colon : regex := Chr (Lit ":").

(** [/(\d{1,2}):(\d{2})\s*(am|pm)?/i] *)
Definition timePattern1 : regex :=
  seqs [Group 1 digit12; colon; Group 2 digit2; spaces0; Opt (Group 3 ampm)].

(** [/(\d{1,2})\s*(am|pm)/i] : two capturing groups only. *)
Definition timePattern2 : regex :=
  seqs [Group 1 digit12; spaces0; Group 2 ampm].

(** [/at\s+(\d{1,2})(?::(\d{2}))?\s*(am|pm)?/i] *)
Definition timePattern3 : regex :=
  seqs [lit "at"; spaces1; Group 1 digit12; Opt (Seq colon (Group 2 digit2));
        spaces0; Opt (Group 3 ampm)].

Definition timePatterns : list regex :=
  [timePattern1; timePattern2; timePattern3].

Record TimeOfDay : Type := mkTime {
  hours : jsnum;
  minutes : Z;
  timeFound : bool
}.

(** The body of the loop once a pattern has matched (lines 74-81). *)
Definition timeOfMatch (m : captures) : TimeOfDay :=
  let hours0 : jsnum :=
    match getCapture 1 m with
    | Some s => parseInt s
    | None => None
    end in
  let minutes :=
    match getCapture 2 m with
    | Some s =>
        match s, parseInt s with
        | EmptyString, _ => 0
        | _, Some n => n
        | _, None => 0
        end
    | None => 0
    end in
  let period := option_map toLowerCase (getCapture 3 m) in
  let isPeriod (p : string) :=
    match period with
    | Some q => String.eqb q p
    | None => false
    end in
  let hours1 : jsnum :=
    match hours0 with
    | Some h => if isPeriod "pm" && (h <? 12) then Some (h + 12) else hours0
    | None => hours0
    end in
  let hours2 : jsnum :=
    match hours1 with
    | Some h => if isPeriod "am" && (h =? 12) then Some 0 else hours1
    | None => hours1
    end in
  mkTime hours2 minutes true.

(** The [for ... of timePatterns] loop with its [break]; the defaults
    are 9 hours and 0 minutes. *)
Fixpoint firstTime (patterns : list regex) (transcript : string) : TimeOfDay :=
  match patterns with
  | [] => mkTime (Some 9) 0 false
  | pattern :: rest =>
      match exec pattern transcript with
      | Some m => timeOfMatch m
      | None => firstTime rest transcript
      end
  end.

Definition extractTime (transcript : string) : TimeOfDay :=
  firstTime timePatterns transcript.

Definition minuteWord : regex := Seq (lit "minute") (Opt (Chr (Lit "s"))).   (* minutes? *)

(** [/(\d+)\s*minutes?\s*(?:before|early|ahead)/i] *)
Definition reminderPattern1 : regex :=
  seqs [Group 1 digits1; spaces0; minuteWord; spaces0;
        alts [lit "before"; lit "early"; lit "ahead"]].

(** [/remind\s*(?:me)?\s*(\d+)\s*minutes?/i] *)
Definition reminderPattern2 : regex :=
  seqs [lit "remind"; spaces0; Opt (lit "me"); spaces0; Group 1 digits1;
        spaces0; minuteWord].

Definition reminderPatterns : list regex :=
  [reminderPattern1; reminderPattern2].

Fixpoint firstReminder (patterns : list regex) (transcript : string) : jsnum :=
  match patterns with
  | [] => Some 10
  | pattern :: rest =>
      match exec pattern transcript with
      | Some m =>
          match getCapture 1 m with
          | Some s => parseInt s
          | None => None
          end
      | None => firstReminder rest transcript
      end
  end.

Definition extractReminderMinutes (transcript : string) : jsnum :=
  firstReminder reminderPatterns transcript.

(** The pattern of the title's [replace] (line 103), ten alternatives in
    source order, flags [gi]. *)
Definition titleNoise : regex :=
  alts [ lit "add schedule";
         lit "schedule";
         lit "remind me to";
         lit "remind me";
         lit "set reminder for";
         lit "set reminder";
         seqs [lit "at"; spaces1; digit12; Opt (Group 1 (Seq colon digit2));
               spaces0; Opt (Group 2 ampm)];
         seqs [digit12; Opt (Group 3 (Seq colon digit2)); spaces0;
               Opt (Group 4 ampm)];
         seqs [digits1; spaces0; minuteWord; spaces0;
               alts [lit "before"; lit "early"; lit "ahead"]];
         seqs [lit "remind"; spaces0; Opt (lit "me"); spaces0; digits1;
               spaces0; minuteWord] ].

(** [transcript.replace(..., '').trim()] *)
Definition strippedTitle (transcript : string) : string :=
  trim (removeAll titleNoise transcript).

(** [title.charAt(0).toUpperCase() + title.slice(1)] *)
Definition capitalize (t : string) : string :=
  toUpperCase (charAt0 t) ++ slice1 t.

(** Lines 102-111. *)
Definition extractTitle (transcript : string) : string :=
  let title := capitalize (strippedTitle transcript) in
  if (String.length title <? 2)%nat then "New Reminder" else title.

(** Line 113. *)
Definition timeString (t : TimeOfDay) : string :=
  padStart (numToString (hours t)) 2 "0" ++ ":" ++ padStart (ofZ (minutes t)) 2 "0".

(** What the parser extracts from a transcript. *)
Record Parsed : Type := mkParsed {
  parsedTitle : string;
  parsedTime : string;
  parsedReminder : jsnum;
  timeWasExplicit : bool
}.

Definition parse (transcript : string) : Parsed :=
  let t := extractTime transcript in
  mkParsed (extractTitle transcript) (timeString t)
           (extractReminderMinutes transcript) (timeFound t).

(** [addSchedule] (lines 263-278) called with all four arguments;
    [dateNow] is [Date.now()]. *)
Definition addSchedule (dateNow : Z) (schedules : list ScheduleItem)
    (title time : string) (description : option string)
    (reminderMinutes : jsnum) : list ScheduleItem :=
  schedules ++
  [ mkScheduleItem (ofZ dateNow) title time description reminderMinutes
      (Some false) (Some false) ].

(** [addSchedule] called without its last argument, as the dialog does:
    the parameter takes its default value 10. *)
Definition addScheduleDefault (dateNow : Z) (schedules : list ScheduleItem)
    (title time : string) (description : option string) : list ScheduleItem :=
  addSchedule dateNow schedules title time description (Some 10).

(** The state change of [parseAndAddSchedule]. *)
Definition parseAndAddSchedule (dateNow : Z) (schedules : list ScheduleItem)
    (transcript : string) : list ScheduleItem :=
  let p := parse transcript in
  addSchedule dateNow schedules (parsedTitle p) (parsedTime p) None
    (parsedReminder p).

End TranscriptParser.

(* ===================================================================== *)
(** ** checkSchedules (src/pages/Index.tsx, lines 289-345) *)
(* ===================================================================== *)

Module ReminderClock.
Import JsString.

(** JavaScript truthiness of an optional boolean field. *)
Definition truthy (b : option bool) : bool :=
  match b with
  | Some true => true
  | _ => false
  end.

Fixpoint allDigits (s : string) : bool :=
  match s with
  | EmptyString => true
  | String a s' => isDigit a && allDigits s'
  end.

(** [Number(s)] on the pieces of a time string: blanks are trimmed, the
    empty string is 0, a run of decimal digits is its value and anything
    else is NaN ([None]).  Times reach the schedule as [HH:MM] from the
    parser's [padStart] formatting or from an [<input type="time">];
    signs, fractions, exponents and radix prefixes are outside that
    format and are not given a value here. *)
Definition toNumber (s : string) : option Z :=
  let t := trim s in
  if allDigits t then Some (digitsPrefix t 0) else None.

(** [s.split(':')]. *)
Fixpoint splitColon (s : string) (cur : string) : list string :=
  match s with
  | EmptyString => [cur]
  | String a s' =>
      if Ascii.eqb a ":"
      then cur :: splitColon s' EmptyString
      else splitColon s' (cur ++ String a EmptyString)
  end.

(** [const [scheduleHours, scheduleMinutes] = time.split(':').map(Number)];
    a missing second piece is [undefined], which [setHours] turns into
    NaN. *)
Definition scheduleHoursMinutes (time : string) : option (Z * Z) :=
  match splitColon time EmptyString with
  | h :: m :: _ =>
      match toNumber h, toNumber m with
      | Some hh, Some mm => Some (hh, mm)
      | _, _ => None
      end
  | _ => None
  end.

Definition msPerMinute : Z := 1000 * 60.
Definition msPerHour : Z := 60 * msPerMinute.
Definition msPerDay : Z := 24 * msPerHour.

(** A [Date] is its count of milliseconds on the local time line (the
    zone offset is taken constant over the day).  [setHours(h, m, 0, 0)]
    keeps the day and replaces the time within it; the second
    [new Date()] of the callback falls on the same day as [now]. *)
Definition startOfDay (now : Z) : Z := now - now mod msPerDay.

Definition setHours (date h m : Z) : Z :=
  startOfDay date + h * msPerHour + m * msPerMinute.

(** [Math.floor(timeDiffMs / (1000 * 60))], NaN when the time string
    does not parse. *)
Definition timeDiffMinutes (now : Z) (schedule : ScheduleItem) : option Z :=
  match scheduleHoursMinutes (time schedule) with
  | Some (h, m) => Some ((setHours now h m - now) / msPerMinute)
  | None => None
  end.

(** [schedule.reminderMinutes || 10] : an absent field, NaN and 0 are
    all falsy. *)
Definition leadMinutes (schedule : ScheduleItem) : Z :=
  match reminderMinutes schedule with
  | Some n => if n =? 0 then 10 else n
  | None => 10
  end.

Inductive NoticeKind : Type := AdvanceNotice | ExactNotice.

(** One toast-and-speak pair; [spoken] is the text handed to [speak]. *)
Record Notice : Type := mkNotice {
  kind : NoticeKind;
  about : string;          (* the item's id *)
  spoken : string
}.

Definition advanceMessage (schedule : ScheduleItem) (d : Z) : string :=
  "Reminder: " ++ title schedule ++ " is coming up in " ++ ofZ d ++ " minute"
    ++ (if d =? 1 then "" else "s") ++ ".".

Definition exactMessage (schedule : ScheduleItem) : string :=
  "It's time for: " ++ title schedule ++ ". "
    ++ match description schedule with
       | Some (String a s) => String a s
       | _ => ""
       end.

(** Number comparisons against a possibly-NaN left operand: every
    comparison with NaN is false. *)
Definition numGt (d : option Z) (n : Z) : bool :=
  match d with Some x => n <? x | None => false end.
Definition numLe (d : option Z) (n : Z) : bool :=
  match d with Some x => x <=? n | None => false end.

Definition advanceDue (now : Z) (schedule : ScheduleItem) : bool :=
  negb (truthy (reminded schedule))
  && numGt (timeDiffMinutes now schedule) 0
  && numLe (timeDiffMinutes now schedule) (leadMinutes schedule).

Definition exactDue (now : Z) (schedule : ScheduleItem) : bool :=
  negb (truthy (notified schedule))
  && numLe (timeDiffMinutes now schedule) 0
  && numGt (timeDiffMinutes now schedule) (-2).

Definition setReminded (s : ScheduleItem) : ScheduleItem :=
  mkScheduleItem (id s) (title s) (time s) (description s)
    (reminderMinutes s) (Some true) (notified s).

Definition setNotified (s : ScheduleItem) : ScheduleItem :=
  mkScheduleItem (id s) (title s) (time s) (description s)
    (reminderMinutes s) (reminded s) (Some true).

(** The callback of [schedules.map] (lines 296-332): the item to store
    and the notice fired for it, if any.  The advance branch returns
    before the exact branch is looked at. *)
Definition checkSchedule (now : Z) (schedule : ScheduleItem)
  : ScheduleItem * option Notice :=
  if advanceDue now schedule then
    (setReminded schedule,
     Some (mkNotice AdvanceNotice (id schedule)
             (advanceMessage schedule
                (default 0 (timeDiffMinutes now schedule)))))
  else if exactDue now schedule then
    (setNotified schedule,
     Some (mkNotice ExactNotice (id schedule) (exactMessage schedule)))
  else (schedule, None).

(** One run of [checkSchedules] at clock reading [now]: the schedule
    collection afterwards and the notices fired, in item order.
    [setSchedules] is only called when [hasUpdates]. *)
Definition checkSchedules (now : Z) (schedules : list ScheduleItem)
  : list ScheduleItem * list Notice :=
  let results := checkSchedule now <$> schedules in
  let updatedSchedules := fst <$> results in
  let hasUpdates := existsb (fun r => bool_decide (is_Some (snd r))) results in
  (if hasUpdates then updatedSchedules else schedules, omap snd results).

(** Repeated ticks: the collection after each tick feeds the next. *)
Fixpoint run (nows : list Z) (schedules : list ScheduleItem)
  : list (list ScheduleItem * list Notice) :=
  match nows with
  | [] => []
  | now :: rest =>
      let r := checkSchedules now schedules in
      r :: run rest (fst r)
  end.

End ReminderClock.

(* ===================================================================== *)
(** ** checkAndAnnounceDirection (src/unnamed/part_001, lines 49-124) *)
(* ===================================================================== *)

Module RouteAnnouncer.
Import JsString.
Local Open Scope R_scope.

(** A coordinate is the pair [[longitude, latitude]] in degrees.  The
    arithmetic of the distance is carried out in the real numbers: the
    code's doubles are read as the reals they stand for. *)
Definition coord : Type := (R * R)%type.

Record RouteStep : Type := mkRouteStep {
  instruction : string;
  distance : R;
  location : coord;
  announced : bool
}.

(** [Math.atan2(y, x)]. *)
Definition atan2 (y x : R) : R :=
  if Rlt_dec 0 x then atan (y / x)
  else if Rlt_dec x 0 then
    (if Rle_dec 0 y then atan (y / x) + PI else atan (y / x) - PI)
  else if Rlt_dec 0 y then PI / 2
  else if Rlt_dec y 0 then - (PI / 2)
  else 0.

(** Lines 50-66: haversine distance in meters. *)
Definition getDistanceBetweenPoints (coord1 coord2 : coord) : R :=
  let R := 6371000 in
  let lat1 := (snd coord1 * PI) / 180 in
  let lat2 := (snd coord2 * PI) / 180 in
  let deltaLat := ((snd coord2 - snd coord1) * PI) / 180 in
  let deltaLon := ((fst coord2 - fst coord1) * PI) / 180 in
  let a :=
    sin (deltaLat / 2) * sin (deltaLat / 2) +
    cos lat1 * cos lat2 * sin (deltaLon / 2) * sin (deltaLon / 2) in
  let c := 2 * atan2 (sqrt a) (sqrt (1 - a)) in
  R * c.

(** [Math.round(x)] : the integer nearest to [x], halves upwards. *)
Definition round (x : R) : Z := Int_part (x + / 2).

(** The four pieces of React state the announcer reads and writes. *)
Record NavState : Type := mkNavState {
  routeSteps : list RouteStep;
  currentStepIndex : nat;
  isNavigating : bool;
  voiceEnabled : bool
}.

(** The two callbacks handed to [setTimeout]. *)
Inductive Deferred : Type :=
| NextStepPreview (nextStep : RouteStep)
| Arrival.

Inductive Effect : Type :=
| Speak (text : string)
| SetTimeout (callback : Deferred) (ms : Z).

Definition markAnnounced (step : RouteStep) : RouteStep :=
  mkRouteStep (instruction step) (distance step) (location step) true.

Definition preAnnouncement (d : R) (step : RouteStep) : string :=
  ("In " ++ ofZ (round d) ++ " meters, " ++ instruction step)%string.

(** One position update.  The state setters of the callback are applied
    to the state the callback closes over. *)
Definition checkAndAnnounceDirection (st : NavState) (currentLocation : coord)
  : NavState * list Effect :=
  if negb (isNavigating st) || Nat.eqb (length (routeSteps st)) 0
     || negb (voiceEnabled st)
  then (st, [])
  else
    match routeSteps st !! currentStepIndex st with
    | None => (st, [])
    | Some currentStep =>
        if announced currentStep then (st, [])
        else
          let distanceToNextTurn :=
            getDistanceBetweenPoints currentLocation (location currentStep) in
          if Rlt_dec distanceToNextTurn 30 then
            let steps' :=
              alter markAnnounced (currentStepIndex st) (routeSteps st) in
            if (Z.of_nat (currentStepIndex st)
                  <? Z.of_nat (length (routeSteps st)) - 1)%Z
            then
              (mkNavState steps' (currentStepIndex st + 1)
                 (isNavigating st) (voiceEnabled st),
               Speak (instruction currentStep) ::
               match routeSteps st !! (currentStepIndex st + 1)%nat with
               | Some nextStep => [SetTimeout (NextStepPreview nextStep) 3000]
               | None => []
               end)
            else
              (mkNavState steps' (currentStepIndex st)
                 (isNavigating st) (voiceEnabled st),
               [Speak (instruction currentStep); SetTimeout Arrival 2000])
          else if Rlt_dec distanceToNextTurn 50 then
            if negb (announced currentStep)
            then (st, [Speak (preAnnouncement distanceToNextTurn currentStep)])
            else (st, [])
          else (st, [])
    end.

(** What a deferred callback does when its timer fires. *)
Definition runDeferred (cb : Deferred) (st : NavState) : NavState * list Effect :=
  match cb with
  | NextStepPreview nextStep =>
      let distanceText :=
        if Rlt_dec 100 (distance nextStep)
        then ("In " ++ ofZ (round (distance nextStep)) ++ " meters")%string
        else "Shortly"%string in
      (st, [Speak (distanceText ++ ", " ++ instruction nextStep)%string])
  | Arrival =>
      (mkNavState (routeSteps st) (currentStepIndex st) false (voiceEnabled st),
       [Speak "You have arrived at your destination."%string])
  end.

End RouteAnnouncer.

(* ===================================================================== *)
(** ** The rest of the schedule page (src/pages/Index.tsx) *)
(* ===================================================================== *)

Module SchedulePage.
Import JsString ReminderClock.

(** [formatTime] (lines 125-130).  [hours] and [minutes] are the two
    first pieces of [time.split(':').map(Number)]; a missing or NaN piece
    is [None], for which [>= 12] and [> 0] are false and [% 12 || 12]
    is 12. *)
Definition formatTime (time : string) : string :=
  let parts := splitColon time EmptyString in
  let hours := hd None (toNumber <$> parts) in
  let minutes := hd None (tl (toNumber <$> parts)) in
  let period :=
    match hours with
    | Some h => if 12 <=? h then "PM" else "AM"
    | None => "AM"
    end in
  let displayHours :=
    match hours with
    | Some h => if Z.rem h 12 =? 0 then 12 else Z.rem h 12
    | None => 12
    end in
  match minutes with
  | Some m =>
      if 0 <? m
      then ofZ displayHours ++ ":" ++ padStart (ofZ m) 2 "0" ++ " " ++ period
      else ofZ displayHours ++ " " ++ period
  | None => ofZ displayHours ++ " " ++ period
  end.

(** [deleteSchedule] (lines 280-286): [schedules.filter(s => s.id !== id)]. *)
Definition deleteSchedule (target : string) (schedules : list ScheduleItem)
  : list ScheduleItem :=
  List.filter (fun s => negb (String.eqb (id s) target)) schedules.

End SchedulePage.

(* ===================================================================== *)
(** ** The first reminder check (src/unnamed/part_000, lines 131-152) *)
(* ===================================================================== *)

Module LegacyClock.
Import JsString ReminderClock.

(** The item of that version has no lead and no flags. *)
Record LegacyItem : Type := mkLegacyItem {
  legacyId : string;
  legacyTitle : string;
  legacyTime : string;
  legacyDescription : option string
}.

(** [now.getHours()] and [now.getMinutes()] on the local time line. *)
Definition getHours (now : Z) : Z := (now mod msPerDay) / msPerHour.
Definition getMinutes (now : Z) : Z := (now mod msPerHour) / msPerMinute.

(** Line 135: the clock reading as zero-padded [HH:MM]. *)
Definition currentTime (now : Z) : string :=
  padStart (ofZ (getHours now)) 2 "0" ++ ":" ++ padStart (ofZ (getMinutes now)) 2 "0".

Definition legacyMessage (schedule : LegacyItem) : string :=
  "Reminder: " ++ legacyTitle schedule ++ ". "
    ++ match legacyDescription schedule with
       | Some (String a s) => String a s
       | _ => ""
       end.

(** The body of [schedules.forEach]: the text spoken for one item, if
    its time string is the clock reading. *)
Definition legacyCheck (now : Z) (schedule : LegacyItem) : option string :=
  if String.eqb (legacyTime schedule) (currentTime now)
  then Some (legacyMessage schedule)
  else None.

Definition legacyCheckSchedules (now : Z) (schedules : list LegacyItem)
  : list string :=
  omap (legacyCheck now) schedules.

End LegacyClock.

(* ===================================================================== *)
(** ** Starting, running and stopping a route (src/unnamed/part_001) *)
(* ===================================================================== *)

Module NavigationSession.
Import RouteAnnouncer.

(** One maneuver of the directions reply: instruction, distance and
    location. *)
Record Maneuver : Type := mkManeuver {
  maneuverInstruction : string;
  maneuverDistance : R;
  maneuverLocation : coord
}.

(** The state setters of [getDirections] (lines 318-328): the steps are
    stored unannounced, the cursor is put on the first one and
    navigation is switched on. *)
Definition setRoute (steps : list Maneuver) (st : NavState) : NavState :=
  mkNavState
    ((fun step => mkRouteStep (maneuverInstruction step) (maneuverDistance step)
                    (maneuverLocation step) false) <$> steps)
    0 true (voiceEnabled st).

(** The position watcher (lines 186-198) over a sequence of positions:
    [checkAndAnnounceDirection] is called while navigating. *)
Fixpoint track (positions : list coord) (st : NavState) : NavState :=
  match positions with
  | [] => st
  | pos :: rest =>
      track rest
        (if isNavigating st then fst (checkAndAnnounceDirection st pos) else st)
  end.

End NavigationSession.

(* ===================================================================== *)
(** ** Vocabulary of the properties *)
(* ===================================================================== *)

Section Vocabulary.
Import JsString Regex TranscriptParser ReminderClock RouteAnnouncer.

(** A time of day in 24-hour form. *)
Definition isTimeOfDay (h m : Z) : Prop := 0 <= h < 24 /\ 0 <= m < 60.

(** The capturing groups that occur in a pattern. *)
Fixpoint groupsOf (r : regex) : list nat :=
  match r with
  | Eps | Chr _ | Star _ => []
  | Seq r1 r2 | Alt r1 r2 => groupsOf r1 ++ groupsOf r2
  | Opt r1 => groupsOf r1
  | Group i r1 => i :: groupsOf r1
  end.

(** Patterns that match at every position, whatever follows. *)
Fixpoint neverFails (r : regex) : bool :=
  match r with
  | Eps | Opt _ | Star _ => true
  | Chr _ => false
  | Seq r1 r2 => neverFails r1 && neverFails r2
  | Alt r1 r2 => neverFails r1 || neverFails r2
  | Group _ r1 => neverFails r1
  end.

(** The eighth alternative of the title's pattern, a bare number with an
    optional minute part and period, and what follows its first digit. *)
Definition afterFirstDigit : regex :=
  seqs [Opt (Chr Digit); Opt (Group 3 (Seq colon digit2)); spaces0;
        Opt (Group 4 ampm)].

Definition bareNumber : regex := Seq (Chr Digit) afterFirstDigit.

(** A clock reading: day [day], [h] hours, [m] minutes, [s] seconds. *)
Definition clock (day h m s : Z) : Z :=
  day * msPerDay + h * msPerHour + m * msPerMinute + s * 1000.

(** The notice of kind [k], if the callback fired one. *)
Definition fires (k : NoticeKind) (now : Z) (schedule : ScheduleItem) : Prop :=
  exists n, snd (checkSchedule now schedule) = Some n /\ kind n = k.

(** The flag read by [flag] goes from unset to set in this tick. *)
Definition flips (flag : ScheduleItem -> option bool) (now : Z)
    (schedule : ScheduleItem) : Prop :=
  truthy (flag schedule) = false
  /\ truthy (flag (fst (checkSchedule now schedule))) = true.

(** The collections seen along a run: the initial one, then the one
    stored after each tick. *)
Definition history (nows : list Z) (schedules : list ScheduleItem)
  : list (list ScheduleItem) :=
  schedules :: (fst <$> run nows schedules).

(** The value of a flag of the [i]-th item, read as the code reads it. *)
Definition flagAt (flag : ScheduleItem -> option bool) (i : nat)
    (schedules : list ScheduleItem) : bool :=
  match schedules !! i with
  | Some s => truthy (flag s)
  | None => false
  end.

(** How often a sequence of readings goes from false to true, and from
    true to false. *)
Fixpoint risings (l : list bool) : nat :=
  match l with
  | b :: ((c :: _) as t) => ((if negb b && c then 1 else 0) + risings t)%nat
  | _ => 0%nat
  end.

Fixpoint fallings (l : list bool) : nat :=
  match l with
  | b :: ((c :: _) as t) => ((if b && negb c then 1 else 0) + fallings t)%nat
  | _ => 0%nat
  end.

(** The conditions under which an update reaches the distance test:
    navigation active, voice enabled, the cursor on a step that has not
    been announced. *)
Record ready (st : NavState) (step : RouteStep) : Prop := mkReady {
  ready_navigating : isNavigating st = true;
  ready_voice : voiceEnabled st = true;
  ready_step : routeSteps st !! currentStepIndex st = Some step;
  ready_fresh : announced step = false
}.

End Vocabulary.

Section MoreVocabulary.
Import JsString Regex TranscriptParser ReminderClock RouteAnnouncer.

(** Does the string contain a decimal digit, a colon? *)
Fixpoint hasDigit (s : string) : bool :=
  match s with
  | EmptyString => false
  | String a s' => isDigit a || hasDigit s'
  end.

Fixpoint hasColon (s : string) : bool :=
  match s with
  | EmptyString => false
  | String a s' => Ascii.eqb a ":" || hasColon s'
  end.

(** Patterns every match of which takes in a digit. *)
Fixpoint needsDigit (r : regex) : bool :=
  match r with
  | Chr Digit => true
  | Eps | Chr _ | Opt _ | Star _ => false
  | Seq r1 r2 => needsDigit r1 || needsDigit r2
  | Alt r1 r2 => needsDigit r1 && needsDigit r2
  | Group _ r1 => needsDigit r1
  end.

(** The 1440 times of day, as pairs of hours and minutes. *)
Definition timesOfDay : list (Z * Z) :=
  flat_map (fun h => List.map (fun m => (Z.of_nat h, Z.of_nat m)) (seq 0 60))
    (seq 0 24).

(** The zero-padded 24-hour form [HH:MM] of a time of day. *)
Definition hhmm (h m : Z) : string := timeString (mkTime (Some h) m true).

(** Equality test on parsed times, and: does the first time pattern
    read the text [t] as [h] hours [m] minutes? *)
Definition sameTime (t u : TimeOfDay) : bool :=
  match hours t, hours u with
  | Some a, Some b => a =? b
  | None, None => true
  | _, _ => false
  end
  && (minutes t =? minutes u) && Bool.eqb (timeFound t) (timeFound u).

Definition readsBack (t : string) (h m : Z) : bool :=
  match exec timePattern1 t with
  | Some caps => sameTime (timeOfMatch caps) (mkTime (Some h) m true)
  | None => false
  end.

(** Does the string start or end with white space, start with a
    lower-case letter? *)
Definition startsBlank (s : string) : bool :=
  match s with
  | String a _ => isSpace a
  | EmptyString => false
  end.

Fixpoint endsBlank (s : string) : bool :=
  match s with
  | EmptyString => false
  | String a EmptyString => isSpace a
  | String _ s' => endsBlank s'
  end.

Definition startsLower (s : string) : bool :=
  match s with
  | String a _ => isLower a
  | EmptyString => false
  end.

(** Does the first reminder pattern read the text [t] as a lead of [n]? *)
Definition readsLead (t : string) (n : Z) : bool :=
  match exec reminderPattern1 t with
  | Some caps =>
      match getCapture 1 caps ≫= parseInt with
      | Some k => k =? n
      | None => false
      end
  | None => false
  end.


(** The kinds of notice the [i]-th item receives along a run, in order. *)
Fixpoint firedAt (i : nat) (nows : list Z) (schedules : list ScheduleItem)
  : list NoticeKind :=
  match nows with
  | [] => []
  | now :: rest =>
      match schedules !! i ≫= (fun s => snd (checkSchedule now s)) with
      | Some n => [kind n]
      | None => []
      end ++ firedAt i rest (fst (checkSchedules now schedules))
  end.

Definition isAdvance (k : NoticeKind) : bool :=
  match k with AdvanceNotice => true | ExactNotice => false end.

Definition isExact (k : NoticeKind) : bool :=
  match k with AdvanceNotice => false | ExactNotice => true end.

(** A navigation state in route order: the cursor is on a step (or the
    route is empty), every step before the cursor is announced and
    every step after it is not. *)
Definition orderly (st : NavState) : Prop :=
  (currentStepIndex st < length (routeSteps st)
   \/ (routeSteps st = [] /\ currentStepIndex st = 0))%nat
  /\ forall j step, routeSteps st !! j = Some step ->
       ((j < currentStepIndex st)%nat -> announced step = true)
       /\ ((currentStepIndex st < j)%nat -> announced step = false).

(** What an update never touches: a step without its flag. *)
Definition maneuverOf (step : RouteStep) : string * R * coord :=
  (instruction step, distance step, location step).

End MoreVocabulary.

(* ===================================================================== *)
(** * Properties of the transcript parser *)
(* ===================================================================== *)

Section TranscriptParserFacts.
Import JsString Regex TranscriptParser.

(** The string primitives on small inputs. *)
Example trim_example : trim "  take medicine 	" = "take medicine".
Proof. vm_compute. reflexivity. Qed.

Example padStart_example :
  padStart (ofZ 8) 2 "0" = "08" /\ padStart (ofZ 123) 2 "0" = "123".
Proof. vm_compute. split; reflexivity. Qed.

Example parseInt_example :
  parseInt "08" = Some 8 /\ parseInt "pm" = None.
Proof. vm_compute. split; reflexivity. Qed.

Example removeAll_example :
  removeAll titleNoise "add schedule lunch at 12:30 pm" = " lunch ".
Proof. vm_compute. reflexivity. Qed.

(** The worked examples of the parser's comment block. *)
Example parse_colon_time_pm :
  parsedTime (parse "8:30 pm") = "20:30".
Proof. vm_compute. reflexivity. Qed.

Example parse_noon :
  parsedTime (parse "12 pm") = "12:00".
Proof. vm_compute. reflexivity. Qed.

Example parse_no_time :
  parsedTime (parse "add schedule walk the dog") = "09:00"
  /\ timeWasExplicit (parse "add schedule walk the dog") = false.
Proof. vm_compute. split; reflexivity. Qed.

Example parse_medicine :
  parsedTitle (parse "remind me to take medicine at 8 am") = "Take medicine"
  /\ parsedTime (parse "remind me to take medicine at 8 am") = "08:00".
Proof. vm_compute. split; reflexivity. Qed.

(** The second time pattern has two capturing groups, so the loop body,
    which reads the period from group 3, sees [undefined] there. *)
Example bare_hour_match_has_no_third_group :
  exec timePattern1 "12 am" = None
  /\ exec timePattern2 "12 am" = Some [(2%nat, "am"); (1%nat, "12")]
  /\ getCapture 3 [(2%nat, "am"); (1%nat, "12")] = None.
Proof. vm_compute. repeat split; reflexivity. Qed.

(** C1: a time expression with an am/pm suffix is normalised to 24-hour
    form (pm below 12 adds 12, 12 am becomes 0).  The code does so for
    the [H:MM] form but not for a bare hour: "12 am" comes out as
    "12:00" where the specification has "00:00", "8 pm" as "08:00" and
    "3 pm" as "03:00". *)
Theorem bare_hour_period_is_dropped :
  parsedTime (parse "12 am") = "12:00"
  /\ parsedTime (parse "remind me to sleep at 12 am") = "12:00"
  /\ parsedTime (parse "8 pm") = "08:00"
  /\ parsedTime (parse "set reminder for tea at 3 pm") = "03:00"
  /\ parsedTime (parse "8:30 pm") = "20:30"
  /\ parsedTime (parse "12:00 am") = "00:00".
Proof. vm_compute. repeat split; reflexivity. Qed.

(** C8: the title is the transcript with every matched time or reminder
    phrase and the command phrases removed, trimmed and capitalised.
    On "remind me to call mom 5 minutes before" the reminder pattern
    matches "5 minutes before" (lead 5), yet the title keeps
    "minutes before": in the title's pattern the alternative for a
    bare number comes before the one for the reminder phrase and takes
    the digit and the blank alone. *)
Theorem reminder_phrase_stays_in_title :
  parsedReminder (parse "remind me to call mom 5 minutes before") = Some 5
  /\ removeAll titleNoise "remind me to call mom 5 minutes before"
     = " call mom minutes before"
  /\ parsedTitle (parse "remind me to call mom 5 minutes before")
     = "Call mom minutes before"
  /\ parsedTitle (parse "remind me 5 minutes before") = "Minutes before".
Proof. vm_compute. repeat split; reflexivity. Qed.

(** C10: the parser does not check the range of the digits it matched:
    a transcript with "19:99" gives hours 19, minutes 99 and the time
    string "19:99", whose minutes exceed 59. *)
Theorem no_range_validation :
  exists transcript : string,
    extractTime transcript = mkTime (Some 19) 99 true
    /\ parsedTime (parse transcript) = "19:99"
    /\ ~ isTimeOfDay 19 99.
Proof.
  exists "remind me to call at 19:99".
  split; [vm_compute; reflexivity|].
  split; [vm_compute; reflexivity|].
  unfold isTimeOfDay. lia.
Qed.

End TranscriptParserFacts.

Section CaptureFrame.
Import JsString Regex TranscriptParser.

Lemma starMatch_frame (c : atom) (s : string) (caps : captures) (k : kont) res :
  starMatch c s caps k = Some res ->
  exists s1, k s1 caps = Some res.
Proof.
  induction s as [|a s IH]; simpl; intros H.
  - eauto.
  - destruct (atomMatches c a); [|eauto].
    unfold orElse in H.
    destruct (starMatch c s caps k) eqn:E; [|eauto].
    inversion H; subst. apply IH. reflexivity.
Qed.

(** A successful match reaches its continuation with every capture slot
    outside the pattern's own groups untouched. *)
Lemma rmatch_frame (r : regex) :
  forall (s : string) (caps : captures) (k : kont) res,
    rmatch r s caps k = Some res ->
    exists s1 caps1,
      k s1 caps1 = Some res
      /\ forall i, ~ In i (groupsOf r) -> getCapture i caps1 = getCapture i caps.
Proof.
  induction r as [|c|r1 IH1 r2 IH2|r1 IH1 r2 IH2|r1 IH1|c|g r1 IH1];
    simpl; intros s caps k res H.
  - eauto.
  - destruct s as [|a s]; [discriminate|].
    destruct (atomMatches c a); [eauto|discriminate].
  - apply IH1 in H as (s1 & caps1 & H & F1).
    apply IH2 in H as (s2 & caps2 & H & F2).
    exists s2, caps2. split; [exact H|].
    intros i Hi. rewrite F2, F1; [reflexivity| |]; intros Hin; apply Hi;
      apply in_or_app; auto.
  - unfold orElse in H.
    destruct (rmatch r1 s caps k) eqn:E.
    + inversion H; subst. apply IH1 in E as (s1 & caps1 & E & F1).
      exists s1, caps1. split; [exact E|].
      intros i Hi. apply F1. intros Hin; apply Hi; apply in_or_app; auto.
    + apply IH2 in H as (s1 & caps1 & H & F2).
      exists s1, caps1. split; [exact H|].
      intros i Hi. apply F2. intros Hin; apply Hi; apply in_or_app; auto.
  - unfold orElse in H.
    destruct (rmatch r1 s caps k) eqn:E.
    + inversion H; subst. apply IH1 in E. exact E.
    + eauto.
  - apply starMatch_frame in H as (s1 & H). eauto.
  - apply IH1 in H as (s1 & caps1 & H & F1).
    eexists _, _. split; [exact H|].
    intros i Hi. simpl.
    destruct (Nat.eqb_spec i g) as [->|Hne].
    + exfalso. apply Hi. left. reflexivity.
    + apply F1. intros Hin. apply Hi. right. exact Hin.
Qed.

Lemma exec_frame (r : regex) (i : nat) (s : string) (m : captures) :
  ~ In i (groupsOf r) -> exec r s = Some m -> getCapture i m = None.
Proof.
  intros Hi. induction s as [|a s IH]; simpl; intros H.
  - destruct (matchHere r EmptyString) as [[rest caps]|] eqn:E; [|discriminate].
    inversion H; subst.
    apply rmatch_frame in E as (s1 & caps1 & E & F).
    inversion E; subst. apply F. exact Hi.
  - destruct (matchHere r (String a s)) as [[rest caps]|] eqn:E; [|auto].
    inversion H; subst.
    apply rmatch_frame in E as (s1 & caps1 & E & F).
    inversion E; subst. apply F. exact Hi.
Qed.

(** Whenever the time comes from the bare-hour pattern, the hour is the
    number as spoken: neither period test of the loop body can fire. *)
Lemma bare_hour_never_normalised (transcript : string) (m : captures) :
  exec timePattern1 transcript = None ->
  exec timePattern2 transcript = Some m ->
  hours (extractTime transcript) = getCapture 1 m ≫= parseInt.
Proof.
  intros H1 H2.
  unfold extractTime, timePatterns, firstTime. rewrite H1, H2.
  assert (H3 : getCapture 3 m = None).
  { eapply exec_frame; [|exact H2].
    vm_compute. intros [H|[H|[]]]; discriminate. }
  unfold timeOfMatch. rewrite H3. simpl.
  destruct (getCapture 1 m) as [s|]; simpl; [|reflexivity].
  destruct (parseInt s); reflexivity.
Qed.

(** A pattern built from optional parts hands every input on to its
    continuation. *)
Lemma starMatch_total (c : atom) (s : string) (caps : captures) (k : kont) :
  (forall s' caps', k s' caps' <> None) -> starMatch c s caps k <> None.
Proof.
  intros Hk. induction s as [|a s IH]; simpl; [apply Hk|].
  destruct (atomMatches c a); [|apply Hk].
  unfold orElse. destruct (starMatch c s caps k); [discriminate|contradiction].
Qed.

Lemma neverFails_total (r : regex) :
  neverFails r = true ->
  forall (s : string) (caps : captures) (k : kont),
    (forall s' caps', k s' caps' <> None) -> rmatch r s caps k <> None.
Proof.
  induction r as [|c|r1 IH1 r2 IH2|r1 IH1 r2 IH2|r1 IH1|c|g r1 IH1];
    simpl; intros Hr s caps k Hk.
  - apply Hk.
  - discriminate.
  - apply andb_true_iff in Hr as [H1 H2].
    apply IH1; [exact H1|]. intros s' caps'. apply IH2; assumption.
  - unfold orElse. destruct (rmatch r1 s caps k) eqn:E; [discriminate|].
    apply orb_true_iff in Hr as [H1|H2].
    + exfalso. revert E. apply IH1; assumption.
    + apply IH2; assumption.
  - unfold orElse. destruct (rmatch r1 s caps k); [discriminate|apply Hk].
  - apply starMatch_total. exact Hk.
  - apply IH1; [exact Hr|]. intros s' caps'. apply Hk.
Qed.

(** At a digit the title's pattern is decided by its eighth alternative,
    which always matches there: the ninth, written for the reminder
    phrase [N minutes before], is never reached. *)
Lemma title_digit_goes_to_bare_number (a : ascii) (s : string) :
  isDigit a = true ->
  matchHere titleNoise (String a s) = matchHere bareNumber (String a s)
  /\ matchHere bareNumber (String a s) <> None.
Proof.
  intros Hd.
  assert (Hnum : matchHere bareNumber (String a s) <> None).
  { unfold matchHere, bareNumber. cbn [rmatch]. unfold atomMatches at 1.
    rewrite Hd. apply neverFails_total; [reflexivity|discriminate]. }
  split; [|exact Hnum].
  destruct (matchHere bareNumber (String a s)) as [res|] eqn:E;
    [|contradiction].
  destruct a as [[] [] [] [] [] [] [] []]; try discriminate Hd;
    unfold matchHere in *; cbn in E |- *; rewrite E; reflexivity.
Qed.

End CaptureFrame.

(* ===================================================================== *)
(** * Properties of the reminder clock *)
(* ===================================================================== *)

Section ReminderClockFacts.
Import ReminderClock.

Lemma advanceDue_spec (now : Z) (schedule : ScheduleItem) :
  advanceDue now schedule = true <->
  truthy (reminded schedule) = false
  /\ exists d, timeDiffMinutes now schedule = Some d
               /\ 0 < d <= leadMinutes schedule.
Proof.
  unfold advanceDue, numGt, numLe.
  destruct (timeDiffMinutes now schedule) as [d|].
  - rewrite !andb_true_iff, negb_true_iff, Z.ltb_lt, Z.leb_le.
    split.
    + intros [[H1 H2] H3]. split; [exact H1|]. exists d. auto.
    + intros [H1 (d' & Hd & H2 & H3)]. inversion Hd; subst. auto.
  - rewrite andb_false_r. split; [discriminate|].
    intros [_ (d & Hd & _)]. discriminate.
Qed.

Lemma exactDue_spec (now : Z) (schedule : ScheduleItem) :
  exactDue now schedule = true <->
  truthy (notified schedule) = false
  /\ exists d, timeDiffMinutes now schedule = Some d /\ -2 < d <= 0.
Proof.
  unfold exactDue, numGt, numLe.
  destruct (timeDiffMinutes now schedule) as [d|].
  - rewrite !andb_true_iff, negb_true_iff, Z.ltb_lt, Z.leb_le.
    split.
    + intros [[H1 H2] H3]. split; [exact H1|]. exists d. auto.
    + intros [H1 (d' & Hd & H2 & H3)]. inversion Hd; subst. auto.
  - rewrite andb_false_r. split; [discriminate|].
    intros [_ (d & Hd & _)]. discriminate.
Qed.

Lemma due_exclusive (now : Z) (schedule : ScheduleItem) :
  advanceDue now schedule = true -> exactDue now schedule = false.
Proof.
  intros Ha. apply advanceDue_spec in Ha as [_ (d & Hd & H1 & _)].
  destruct (exactDue now schedule) eqn:He; [|reflexivity].
  apply exactDue_spec in He as [_ (d' & Hd' & _ & H2)].
  rewrite Hd in Hd'. inversion Hd'; subst. lia.
Qed.

Lemma fires_advance_iff (now : Z) (schedule : ScheduleItem) :
  fires AdvanceNotice now schedule <-> advanceDue now schedule = true.
Proof.
  unfold fires, checkSchedule.
  destruct (advanceDue now schedule); simpl.
  - split; [reflexivity|]. intros _. eexists. split; reflexivity.
  - split; [|discriminate].
    destruct (exactDue now schedule); simpl; intros (n & Hn & Hk).
    + inversion Hn; subst. discriminate.
    + discriminate.
Qed.

Lemma fires_exact_iff (now : Z) (schedule : ScheduleItem) :
  fires ExactNotice now schedule <->
  advanceDue now schedule = false /\ exactDue now schedule = true.
Proof.
  unfold fires, checkSchedule.
  destruct (advanceDue now schedule); simpl.
  - split.
    + intros (n & Hn & Hk). inversion Hn; subst. discriminate.
    + intros [H _]. discriminate.
  - destruct (exactDue now schedule); simpl.
    + split; [auto|]. intros _. eexists. split; reflexivity.
    + split; [intros (n & Hn & _); discriminate|intros [_ H]; discriminate].
Qed.

Lemma flips_reminded_iff (now : Z) (schedule : ScheduleItem) :
  flips reminded now schedule <-> advanceDue now schedule = true.
Proof.
  unfold flips, checkSchedule.
  destruct (advanceDue now schedule) eqn:Ha; simpl.
  - apply advanceDue_spec in Ha as [Hr _]. tauto.
  - destruct (exactDue now schedule); simpl;
      (split; [intros [H1 H2]; congruence|discriminate]).
Qed.

Lemma flips_notified_iff (now : Z) (schedule : ScheduleItem) :
  flips notified now schedule <->
  advanceDue now schedule = false /\ exactDue now schedule = true.
Proof.
  unfold flips, checkSchedule.
  destruct (advanceDue now schedule) eqn:Ha; simpl.
  - split; [intros [H1 H2]; congruence|intros [H _]; discriminate].
  - destruct (exactDue now schedule) eqn:He; simpl.
    + apply exactDue_spec in He as [Hn _]. tauto.
    + split; [intros [H1 H2]; congruence|intros [_ H]; discriminate].
Qed.

(** On a one-item collection the tick fires what the callback fires. *)
Lemma checkSchedules_single (now : Z) (schedule : ScheduleItem) :
  snd (checkSchedules now [schedule])
  = match snd (checkSchedule now schedule) with
    | Some n => [n]
    | None => []
    end.
Proof.
  unfold checkSchedules. simpl.
  destruct (snd (checkSchedule now schedule)); reflexivity.
Qed.

(** The advance branch as the code has it: a tick fires the advance
    notice for an item and sets its [reminded] flag exactly when the
    flag is not yet set and 0 < deltaMinutes <= [leadMinutes]; with a
    stored lead of 10 and the item 10 minutes away (or less, but still
    ahead) the tick fires the advance notice alone. *)
Lemma advance_notice_fires_iff (now : Z) (schedule : ScheduleItem) :
  (fires AdvanceNotice now schedule <->
     truthy (reminded schedule) = false
     /\ exists d, timeDiffMinutes now schedule = Some d
                  /\ 0 < d <= leadMinutes schedule)
  /\ (flips reminded now schedule <-> fires AdvanceNotice now schedule)
  /\ (reminderMinutes schedule = Some 10 ->
      truthy (reminded schedule) = false ->
      forall d, timeDiffMinutes now schedule = Some d -> 0 < d <= 10 ->
      map kind (snd (checkSchedules now [schedule])) = [AdvanceNotice]).
Proof.
  split; [|split].
  - rewrite fires_advance_iff. apply advanceDue_spec.
  - rewrite fires_advance_iff. apply flips_reminded_iff.
  - intros Hl Hr d Hd Hrange.
    assert (Ha : advanceDue now schedule = true).
    { apply advanceDue_spec. split; [exact Hr|]. exists d.
      unfold leadMinutes. rewrite Hl. simpl. split; [exact Hd|lia]. }
    rewrite checkSchedules_single. unfold checkSchedule. rewrite Ha.
    reflexivity.
Qed.

Example advance_notice_ten_minutes_ahead :
  map kind
    (snd (checkSchedules (clock 20000 13 50 0)
            [mkScheduleItem "1" "Gym" "14:00" None (Some 10) None None]))
  = [AdvanceNotice].
Proof.
  refine (proj2 (proj2 (advance_notice_fires_iff (clock 20000 13 50 0)
           (mkScheduleItem "1" "Gym" "14:00" None (Some 10) None None)))
         eq_refl eq_refl 10 _ _);
    [vm_compute; reflexivity|lia].
Defined.

(** A lead of 0 is what the parser stores for "0 minutes before". *)
Example parse_zero_lead :
  (reminderMinutes <$>
     last (TranscriptParser.parseAndAddSchedule 1700000000000 []
             "remind me to stretch at 2:00 pm 0 minutes before"))
  = Some (Some 0).
Proof. vm_compute. reflexivity. Qed.

(** C2: a tick fires the advance notice and sets [reminded] exactly when
    the flag is not yet set and 0 < deltaMinutes <= reminderLeadMinutes.
    For a stored lead of 0 the code does otherwise: five minutes ahead
    of the item the bound 0 < 5 <= 0 is false, yet the advance notice
    fires and the flag is set, because [reminderMinutes || 10] reads the
    0 as 10. *)
Theorem zero_lead_still_fires :
  let schedule :=
    mkScheduleItem "1" "Gym" "14:00" None (Some 0) (Some false) (Some false) in
  let now := clock 20000 13 55 0 in
  reminderMinutes schedule = Some 0
  /\ timeDiffMinutes now schedule = Some 5
  /\ ~ (0 < 5 <= 0)
  /\ map kind (snd (checkSchedules now [schedule])) = [AdvanceNotice]
  /\ reminded (fst (checkSchedule now schedule)) = Some true.
Proof.
  vm_compute. repeat split; try reflexivity.
  intros [_ H]. apply H. reflexivity.
Qed.


(** The scheduled instant itself: at [h]:[m]:00.000 of any day the
    difference is 0 minutes. *)
Lemma timeDiff_at_scheduled_time (day h m : Z) (schedule : ScheduleItem) :
  scheduleHoursMinutes (time schedule) = Some (h, m) ->
  0 <= h * msPerHour + m * msPerMinute < msPerDay ->
  timeDiffMinutes (clock day h m 0) schedule = Some 0.
Proof.
  intros Ht Hr. unfold timeDiffMinutes. rewrite Ht. f_equal.
  unfold setHours, startOfDay, clock.
  replace (day * msPerDay + h * msPerHour + m * msPerMinute + 0 * 1000)
    with ((h * msPerHour + m * msPerMinute) + day * msPerDay) by ring.
  rewrite Z_mod_plus_full, Z.mod_small by exact Hr.
  replace (h * msPerHour + m * msPerMinute + day * msPerDay
           - (h * msPerHour + m * msPerMinute) + h * msPerHour
           + m * msPerMinute
           - (h * msPerHour + m * msPerMinute + day * msPerDay))
    with 0 by ring.
  reflexivity.
Qed.

(** C3: for an item whose [notified] flag is not yet set, a tick fires
    the exact notice exactly when -2 < deltaMinutes <= 0: it fires at
    deltaMinutes = 0 and sets the flag, and nothing fires once
    deltaMinutes <= -2. *)
Theorem exact_notice_fires_iff (now : Z) (schedule : ScheduleItem) :
  truthy (notified schedule) = false ->
  (fires ExactNotice now schedule <->
     exists d, timeDiffMinutes now schedule = Some d /\ -2 < d <= 0)
  /\ (timeDiffMinutes now schedule = Some 0 ->
      checkSchedule now schedule
      = (setNotified schedule,
         Some (mkNotice ExactNotice (id schedule) (exactMessage schedule))))
  /\ (forall d, timeDiffMinutes now schedule = Some d -> d <= -2 ->
      checkSchedule now schedule = (schedule, None)).
Proof.
  intros Hn.
  assert (Hex : exactDue now schedule = true <->
                exists d, timeDiffMinutes now schedule = Some d /\ -2 < d <= 0).
  { rewrite exactDue_spec. tauto. }
  assert (Hadv : forall d, timeDiffMinutes now schedule = Some d -> d <= 0 ->
                 advanceDue now schedule = false).
  { intros d Hd Hle. destruct (advanceDue now schedule) eqn:Ha; [|reflexivity].
    apply advanceDue_spec in Ha as [_ (d' & Hd' & H1 & _)].
    rewrite Hd in Hd'. inversion Hd'; subst. lia. }
  split; [|split].
  - rewrite fires_exact_iff, Hex. split; [tauto|].
    intros (d & Hd & H1 & H2). split; [|eauto].
    apply (Hadv d Hd H2).
  - intros Hd. unfold checkSchedule.
    rewrite (Hadv 0 Hd) by lia.
    replace (exactDue now schedule) with true; [reflexivity|].
    symmetry. apply Hex. exists 0. split; [exact Hd|lia].
  - intros d Hd Hle. unfold checkSchedule.
    rewrite (Hadv d Hd) by lia.
    destruct (exactDue now schedule) eqn:He; [|reflexivity].
    apply exactDue_spec in He as [_ (d' & Hd' & H1 & _)].
    rewrite Hd in Hd'. inversion Hd'; subst. lia.
Qed.

Lemma exact_notice_fires_witness :
  checkSchedule (clock 20000 14 0 0)
    (mkScheduleItem "1" "Gym" "14:00" (Some "Leg day") (Some 10)
       (Some true) (Some false))
  = (mkScheduleItem "1" "Gym" "14:00" (Some "Leg day") (Some 10)
       (Some true) (Some true),
     Some (mkNotice ExactNotice "1" "It's time for: Gym. Leg day")).
Proof.
  apply (proj1 (proj2 (exact_notice_fires_iff (clock 20000 14 0 0)
           (mkScheduleItem "1" "Gym" "14:00" (Some "Leg day") (Some 10)
              (Some true) (Some false)) eq_refl))).
  apply timeDiff_at_scheduled_time; [vm_compute; reflexivity|].
  unfold msPerDay, msPerHour, msPerMinute. lia.
Defined.


(** The stored collection is the item-wise image of the callback, also
    when [setSchedules] is skipped: an item that fired nothing is
    returned as it is. *)
Lemma checkSchedule_quiet (now : Z) (schedule : ScheduleItem) :
  snd (checkSchedule now schedule) = None ->
  fst (checkSchedule now schedule) = schedule.
Proof.
  unfold checkSchedule.
  destruct (advanceDue now schedule); [discriminate|].
  destruct (exactDue now schedule); [discriminate|reflexivity].
Qed.

Lemma checkSchedules_fst (now : Z) (schedules : list ScheduleItem) :
  fst (checkSchedules now schedules)
  = (fun s => fst (checkSchedule now s)) <$> schedules.
Proof.
  unfold checkSchedules. cbn [fst].
  destruct (existsb _ _) eqn:E.
  - rewrite <- list_fmap_compose. reflexivity.
  - induction schedules as [|s l IH]; [reflexivity|].
    cbn in E. apply orb_false_elim in E as [E1 E2].
    rewrite fmap_cons, <- IH by exact E2. f_equal.
    symmetry. apply checkSchedule_quiet.
    destruct (snd (checkSchedule now s)) eqn:Es; [|reflexivity].
    rewrite bool_decide_eq_false in E1. exfalso. apply E1. eauto.
Qed.

Lemma checkSchedules_snd (now : Z) (schedules : list ScheduleItem) :
  snd (checkSchedules now schedules)
  = omap (fun s => snd (checkSchedule now s)) schedules.
Proof.
  unfold checkSchedules. cbn [snd].
  induction schedules as [|s l IH]; [reflexivity|].
  cbn. rewrite IH. reflexivity.
Qed.

Lemma checkSchedules_lookup (now : Z) (schedules : list ScheduleItem) (i : nat) :
  fst (checkSchedules now schedules) !! i
  = (fun s => fst (checkSchedule now s)) <$> (schedules !! i).
Proof. rewrite checkSchedules_fst. apply list_lookup_fmap. Qed.

(** C9: an item for which neither notice fires is returned unchanged
    and contributes no notice; the collection after the tick has the
    same length and differs from the one before only at items whose
    flag went from unset to set in this tick, and there only in that
    flag. *)
Theorem quiet_items_are_kept (now : Z) (schedules : list ScheduleItem)
    (i : nat) (schedule : ScheduleItem) :
  schedules !! i = Some schedule ->
  length (fst (checkSchedules now schedules)) = length schedules
  /\ snd (checkSchedules now schedules)
     = omap (fun s => snd (checkSchedule now s)) schedules
  /\ (~ fires AdvanceNotice now schedule ->
      ~ fires ExactNotice now schedule ->
      fst (checkSchedules now schedules) !! i = Some schedule
      /\ snd (checkSchedule now schedule) = None)
  /\ (fst (checkSchedules now schedules) !! i <> Some schedule ->
      (flips reminded now schedule
       /\ fst (checkSchedules now schedules) !! i = Some (setReminded schedule))
      \/ (flips notified now schedule
          /\ fst (checkSchedules now schedules) !! i = Some (setNotified schedule))).
Proof.
  intros Hi.
  split; [rewrite checkSchedules_fst; apply length_fmap|].
  split; [apply checkSchedules_snd|].
  rewrite checkSchedules_lookup, Hi. cbn [fmap option_fmap option_map].
  rewrite fires_advance_iff, fires_exact_iff.
  rewrite flips_reminded_iff, flips_notified_iff.
  unfold checkSchedule.
  destruct (advanceDue now schedule) eqn:Ha; cbn [fst snd].
  - split; [intros H; exfalso; apply H; reflexivity|]. intros _. left. auto.
  - destruct (exactDue now schedule) eqn:He; cbn [fst snd].
    + split; [intros _ H; exfalso; apply H; auto|]. intros _. right. auto.
    + split; [auto|]. intros H. exfalso. apply H. reflexivity.
Qed.

Lemma quiet_items_are_kept_witness :
  fst (checkSchedules (clock 20000 13 56 0)
         [mkScheduleItem "1" "Morning Medicine" "08:00" None (Some 10) None None;
          mkScheduleItem "2" "Gym" "14:00" None (Some 5) None None]) !! 0%nat
  = Some (mkScheduleItem "1" "Morning Medicine" "08:00" None (Some 10) None None).
Proof.
  refine (proj1 (proj1 (proj2 (proj2
    (quiet_items_are_kept (clock 20000 13 56 0)
      [mkScheduleItem "1" "Morning Medicine" "08:00" None (Some 10) None None;
       mkScheduleItem "2" "Gym" "14:00" None (Some 5) None None]
      0%nat _ eq_refl))) _ _)).
  - rewrite fires_advance_iff. vm_compute. discriminate.
  - rewrite fires_exact_iff. vm_compute. intros [_ H]. discriminate.
Defined.


(** *** The flags along repeated ticks *)

Lemma risings_step (b c : bool) (t : list bool) :
  risings (b :: c :: t)
  = ((if negb b && c then 1 else 0) + risings (c :: t))%nat.
Proof. reflexivity. Qed.

Lemma fallings_step (b c : bool) (t : list bool) :
  fallings (b :: c :: t)
  = ((if b && negb c then 1 else 0) + fallings (c :: t))%nat.
Proof. reflexivity. Qed.

Section OneShotFlag.
Variable flag : ScheduleItem -> option bool.
Hypothesis flag_kept : forall now s,
  truthy (flag s) = true -> truthy (flag (fst (checkSchedule now s))) = true.

Lemma flagAt_kept (now : Z) (schedules : list ScheduleItem) (i : nat) :
  flagAt flag i schedules = true ->
  flagAt flag i (fst (checkSchedules now schedules)) = true.
Proof.
  unfold flagAt. rewrite checkSchedules_lookup.
  destruct (schedules !! i) as [s|]; cbn; [apply flag_kept|discriminate].
Qed.

Lemma one_shot (i : nat) (nows : list Z) :
  forall schedules : list ScheduleItem,
    (risings (flagAt flag i <$> history nows schedules)
     <= if flagAt flag i schedules then 0 else 1)%nat
    /\ fallings (flagAt flag i <$> history nows schedules) = 0%nat.
Proof.
  unfold history.
  induction nows as [|now rest IH]; intros schedules.
  - cbn. split; [lia|reflexivity].
  - specialize (IH (fst (checkSchedules now schedules))) as [IH1 IH2].
    pose proof (flagAt_kept now schedules i) as Hk.
    cbn [run fmap list_fmap] in *.
    set (b := flagAt flag i schedules) in *.
    set (b' := flagAt flag i (fst (checkSchedules now schedules))) in *.
    set (t := flagAt flag i <$> _) in *. clearbody b b' t.
    rewrite risings_step, fallings_step.
    destruct b, b'; cbn [negb andb] in *;
      try (specialize (Hk eq_refl); discriminate);
      split; lia.
Qed.
End OneShotFlag.

Lemma reminded_kept (now : Z) (s : ScheduleItem) :
  truthy (reminded s) = true ->
  truthy (reminded (fst (checkSchedule now s))) = true.
Proof.
  intros H. unfold checkSchedule.
  destruct (advanceDue now s); [reflexivity|].
  destruct (exactDue now s); exact H.
Qed.

Lemma notified_kept (now : Z) (s : ScheduleItem) :
  truthy (notified s) = true ->
  truthy (notified (fst (checkSchedule now s))) = true.
Proof.
  intros H. unfold checkSchedule.
  destruct (advanceDue now s); [exact H|].
  destruct (exactDue now s); [reflexivity|exact H].
Qed.

(** C4: along any increasing sequence of clock readings, the [reminded]
    flag and the [notified] flag of an item each go from unset to set at
    most once, and the engine never takes either back. *)
Theorem flags_flip_at_most_once (nows : list Z)
    (schedules : list ScheduleItem) (i : nat) :
  Sorted Z.le nows ->
  (risings (flagAt reminded i <$> history nows schedules) <= 1)%nat
  /\ fallings (flagAt reminded i <$> history nows schedules) = 0%nat
  /\ (risings (flagAt notified i <$> history nows schedules) <= 1)%nat
  /\ fallings (flagAt notified i <$> history nows schedules) = 0%nat.
Proof.
  intros _.
  destruct (one_shot reminded reminded_kept i nows schedules) as [R1 R2].
  destruct (one_shot notified notified_kept i nows schedules) as [N1 N2].
  repeat split; try assumption.
  - destruct (flagAt reminded i schedules); lia.
  - destruct (flagAt notified i schedules); lia.
Qed.

Lemma flags_flip_at_most_once_witness :
  Nat.le
    (risings
       (flagAt reminded 0 <$>
          history [clock 20000 13 54 0; clock 20000 13 56 0;
                   clock 20000 14 0 0; clock 20000 14 1 0]
            [mkScheduleItem "1" "Gym" "14:00" None (Some 5) None None]))
    1.
Proof.
  refine (proj1 (flags_flip_at_most_once
    [clock 20000 13 54 0; clock 20000 13 56 0;
     clock 20000 14 0 0; clock 20000 14 1 0]
    [mkScheduleItem "1" "Gym" "14:00" None (Some 5) None None] 0%nat _)).
  repeat constructor; vm_compute; discriminate.
Defined.

(** The end-to-end scenario: an item at 14:00 with a lead of 5 stays
    quiet at 13:54, gets its advance notice at 13:56 and its exact
    notice at 14:00, and is quiet again at 14:01. *)
Example scenario_two_notices :
  (map kind ∘ snd) <$>
    run [clock 20000 13 54 0; clock 20000 13 56 0;
         clock 20000 14 0 0; clock 20000 14 1 0]
      [mkScheduleItem "1" "Gym" "14:00" None (Some 5) None None]
  = [[]; [AdvanceNotice]; [ExactNotice]; []].
Proof. vm_compute. reflexivity. Qed.

End ReminderClockFacts.

(* ===================================================================== *)
(** * Properties of the route announcer *)
(* ===================================================================== *)

Section DistanceFacts.
Import RouteAnnouncer.
Local Open Scope R_scope.

Lemma atan2_pos (y x : R) : 0 < x -> atan2 y x = atan (y / x).
Proof.
  intros Hx. unfold atan2. destruct (Rlt_dec 0 x); [reflexivity|contradiction].
Qed.

(** A point is at distance 0 from itself. *)
Lemma distance_same_point (p : coord) : getDistanceBetweenPoints p p = 0.
Proof.
  unfold getDistanceBetweenPoints.
  replace ((snd p - snd p) * PI / 180 / 2) with 0 by (unfold Rdiv; ring).
  replace ((fst p - fst p) * PI / 180 / 2) with 0 by (unfold Rdiv; ring).
  rewrite sin_0.
  replace (0 * 0 + cos (snd p * PI / 180) * cos (snd p * PI / 180) * 0 * 0)
    with 0 by ring.
  rewrite Rminus_0_r, sqrt_0, sqrt_1, atan2_pos by lra.
  unfold Rdiv. rewrite Rmult_0_l, atan_0. ring.
Qed.

(** Along a meridian the distance is the arc: radius times the
    difference of latitude in radians. *)
Lemma distance_along_meridian (lng lat1 lat2 : R) :
  0 <= lat2 - lat1 < 180 ->
  getDistanceBetweenPoints (lng, lat1) (lng, lat2)
  = 6371000 * ((lat2 - lat1) * PI / 180).
Proof.
  intros [Hlo Hhi].
  pose proof PI_RGT_0 as Hpi.
  unfold getDistanceBetweenPoints. cbn [fst snd].
  set (x := (lat2 - lat1) * PI / 180 / 2).
  assert (Hx0 : 0 <= x).
  { unfold x, Rdiv. apply Rmult_le_pos; [|lra].
    apply Rmult_le_pos; [|lra]. apply Rmult_le_pos; lra. }
  assert (Hx1 : x < PI / 2).
  { unfold x.
    apply Rmult_lt_reg_r with (r := 360); [lra|].
    replace ((lat2 - lat1) * PI / 180 / 2 * 360) with ((lat2 - lat1) * PI)
      by field.
    replace (PI / 2 * 360) with (180 * PI) by field.
    apply Rmult_lt_compat_r; lra. }
  replace ((lng - lng) * PI / 180 / 2) with 0 by (unfold Rdiv; ring).
  rewrite sin_0.
  replace (sin x * sin x
           + cos (lat1 * PI / 180) * cos (lat2 * PI / 180) * 0 * 0)
    with (sin x * sin x) by ring.
  assert (Hs : 0 <= sin x) by (apply sin_ge_0; lra).
  assert (Hc : 0 < cos x) by (apply cos_gt_0; lra).
  replace (1 - sin x * sin x) with (cos x * cos x).
  2:{ pose proof (sin2_cos2 x) as H. unfold Rsqr in H. lra. }
  rewrite !sqrt_square by lra.
  rewrite atan2_pos by exact Hc.
  change (sin x / cos x) with (tan x).
  rewrite atan_tan by lra.
  unfold x. field.
Qed.

End DistanceFacts.

Section RouteAnnouncerFacts.
Import RouteAnnouncer.
Local Open Scope R_scope.

Lemma lookup_nonempty (st : NavState) (step : RouteStep) :
  routeSteps st !! currentStepIndex st = Some step ->
  Nat.eqb (length (routeSteps st)) 0 = false.
Proof.
  intros H. apply Nat.eqb_neq. apply lookup_lt_Some in H. lia.
Qed.

(** The test [currentStepIndex < routeSteps.length - 1] asks whether a
    later step exists. *)
Lemma later_step_test (st : NavState) :
  (Z.of_nat (currentStepIndex st) <? Z.of_nat (length (routeSteps st)) - 1)%Z
  = bool_decide (is_Some (routeSteps st !! (currentStepIndex st + 1)%nat)).
Proof.
  destruct (Z.ltb_spec (Z.of_nat (currentStepIndex st))
              (Z.of_nat (length (routeSteps st)) - 1)) as [H|H];
    symmetry.
  - apply bool_decide_eq_true. apply lookup_lt_is_Some. lia.
  - apply bool_decide_eq_false. rewrite lookup_lt_is_Some. lia.
Qed.

(** An update with the cursor on an announced step does nothing. *)
Lemma announced_current_is_silent (st : NavState) (pos : coord)
    (step : RouteStep) :
  routeSteps st !! currentStepIndex st = Some step ->
  announced step = true ->
  checkAndAnnounceDirection st pos = (st, []).
Proof.
  intros Hs Ha. unfold checkAndAnnounceDirection.
  destruct (_ || _ || _); [reflexivity|].
  rewrite Hs, Ha. reflexivity.
Qed.

(** The three outcomes of an update that reaches the distance test. *)
Lemma step_within_30 (st : NavState) (pos : coord) (step : RouteStep) :
  ready st step ->
  getDistanceBetweenPoints pos (location step) < 30 ->
  checkAndAnnounceDirection st pos
  = match routeSteps st !! (currentStepIndex st + 1)%nat with
    | Some nextStep =>
        (mkNavState
           (alter markAnnounced (currentStepIndex st) (routeSteps st))
           (currentStepIndex st + 1) (isNavigating st) (voiceEnabled st),
         [Speak (instruction step); SetTimeout (NextStepPreview nextStep) 3000])
    | None =>
        (mkNavState
           (alter markAnnounced (currentStepIndex st) (routeSteps st))
           (currentStepIndex st) (isNavigating st) (voiceEnabled st),
         [Speak (instruction step); SetTimeout Arrival 2000])
    end.
Proof.
  intros [Hn Hv Hs Ha] Hd. unfold checkAndAnnounceDirection.
  rewrite Hn, Hv, (lookup_nonempty st step Hs), Hs, Ha. cbn [negb orb].
  destruct (Rlt_dec _ 30) as [_|Hge]; [|contradiction].
  rewrite later_step_test.
  destruct (routeSteps st !! (currentStepIndex st + 1)%nat) as [next|] eqn:E.
  - rewrite bool_decide_eq_true_2 by eauto. reflexivity.
  - rewrite bool_decide_eq_false_2; [reflexivity|].
    intros [x Hx]. discriminate.
Qed.

Lemma step_within_50 (st : NavState) (pos : coord) (step : RouteStep) :
  ready st step ->
  30 <= getDistanceBetweenPoints pos (location step) < 50 ->
  checkAndAnnounceDirection st pos
  = (st, [Speak (preAnnouncement
                   (getDistanceBetweenPoints pos (location step)) step)]).
Proof.
  intros [Hn Hv Hs Ha] [Hlo Hhi]. unfold checkAndAnnounceDirection.
  rewrite Hn, Hv, (lookup_nonempty st step Hs), Hs, Ha. cbn [negb orb].
  destruct (Rlt_dec _ 30) as [Hlt|_]; [lra|].
  destruct (Rlt_dec _ 50) as [_|Hge]; [reflexivity|contradiction].
Qed.

Lemma step_beyond_50 (st : NavState) (pos : coord) (step : RouteStep) :
  ready st step ->
  50 <= getDistanceBetweenPoints pos (location step) ->
  checkAndAnnounceDirection st pos = (st, []).
Proof.
  intros [Hn Hv Hs Ha] Hlo. unfold checkAndAnnounceDirection.
  rewrite Hn, Hv, (lookup_nonempty st step Hs), Hs, Ha. cbn [negb orb].
  destruct (Rlt_dec _ 30) as [Hlt|_]; [lra|].
  destruct (Rlt_dec _ 50) as [Hlt|_]; [lra|reflexivity].
Qed.

(** Whatever an update speaks is taken from the step under the cursor,
    and that step was not announced before. *)
Lemma speech_is_about_current (st : NavState) (pos : coord) (text : string) :
  In (Speak text) (snd (checkAndAnnounceDirection st pos)) ->
  exists step,
    routeSteps st !! currentStepIndex st = Some step
    /\ announced step = false
    /\ (text = instruction step
        \/ text = preAnnouncement
                    (getDistanceBetweenPoints pos (location step)) step).
Proof.
  unfold checkAndAnnounceDirection.
  destruct (_ || _ || _); [intros []|].
  destruct (routeSteps st !! currentStepIndex st) as [step|] eqn:Hs; [|intros []].
  destruct (announced step) eqn:Ha; [intros []|].
  intros H. exists step. split; [reflexivity|]. split; [exact Ha|].
  destruct (Rlt_dec _ 30).
  - destruct (_ <? _)%Z; cbn in H.
    + destruct H as [H|H]; [inversion H; auto|].
      destruct (routeSteps st !! (currentStepIndex st + 1)%nat);
        cbn in H; [destruct H as [H|[]]; discriminate|destruct H].
    + destruct H as [H|[H|[]]]; [inversion H; auto|discriminate].
  - destruct (Rlt_dec _ 50); cbn in H; [|destruct H].
    destruct H as [H|[]]. inversion H; auto.
Qed.


(** The state after an announcement. *)
Lemma announce_state (st : NavState) (pos : coord) (step : RouteStep) :
  ready st step ->
  getDistanceBetweenPoints pos (location step) < 30 ->
  routeSteps (fst (checkAndAnnounceDirection st pos))
  = alter markAnnounced (currentStepIndex st) (routeSteps st)
  /\ isNavigating (fst (checkAndAnnounceDirection st pos)) = true
  /\ voiceEnabled (fst (checkAndAnnounceDirection st pos)) = true
  /\ currentStepIndex (fst (checkAndAnnounceDirection st pos))
     = match routeSteps st !! (currentStepIndex st + 1)%nat with
       | Some _ => (currentStepIndex st + 1)%nat
       | None => currentStepIndex st
       end.
Proof.
  intros Hr Hd. rewrite (step_within_30 st pos step Hr Hd).
  destruct Hr as [Hn Hv _ _].
  destruct (routeSteps st !! (currentStepIndex st + 1)%nat); cbn; auto.
Qed.

(** C5, for a step that has not been announced yet: with navigation
    active and voice enabled, an update closer than 30 m to the step
    under the cursor speaks that step's instruction, marks that step
    (and no other) announced, and moves the cursor on by one if a later
    step exists; on the last step the cursor stays and the arrival
    callback is scheduled, which marks the session not navigating. *)
Theorem near_step_is_announced (st : NavState) (pos : coord)
    (step : RouteStep) :
  isNavigating st = true ->
  voiceEnabled st = true ->
  routeSteps st !! currentStepIndex st = Some step ->
  announced step = false ->
  getDistanceBetweenPoints pos (location step) < 30 ->
  head (snd (checkAndAnnounceDirection st pos))
  = Some (Speak (instruction step))
  /\ routeSteps (fst (checkAndAnnounceDirection st pos)) !! currentStepIndex st
     = Some (markAnnounced step)
  /\ (forall j, j <> currentStepIndex st ->
      routeSteps (fst (checkAndAnnounceDirection st pos)) !! j
      = routeSteps st !! j)
  /\ (is_Some (routeSteps st !! S (currentStepIndex st)) ->
      currentStepIndex (fst (checkAndAnnounceDirection st pos))
      = S (currentStepIndex st)
      /\ isNavigating (fst (checkAndAnnounceDirection st pos)) = true)
  /\ (routeSteps st !! S (currentStepIndex st) = None ->
      currentStepIndex (fst (checkAndAnnounceDirection st pos))
      = currentStepIndex st
      /\ snd (checkAndAnnounceDirection st pos)
         = [Speak (instruction step); SetTimeout Arrival 2000]
      /\ isNavigating
           (fst (runDeferred Arrival (fst (checkAndAnnounceDirection st pos))))
         = false).
Proof.
  intros Hn Hv Hs Ha Hd.
  assert (Hr : ready st step) by (constructor; assumption).
  replace (S (currentStepIndex st)) with (currentStepIndex st + 1)%nat by lia.
  rewrite (step_within_30 st pos step Hr Hd).
  destruct (routeSteps st !! (currentStepIndex st + 1)%nat) as [next|] eqn:E;
    cbn [fst snd head routeSteps currentStepIndex isNavigating runDeferred];
    (split; [reflexivity|]);
    (split; [rewrite list_lookup_alter_eq, Hs; reflexivity|]);
    (split; [intros j Hj; apply list_lookup_alter_ne; congruence|]).
  - split; [intros _; auto|discriminate].
  - split; [intros [x Hx]; discriminate|auto].
Qed.

Lemma near_step_is_announced_witness :
  head (snd (checkAndAnnounceDirection
               (mkNavState
                  [mkRouteStep "Turn left" 120 (77.59, 12.97) false;
                   mkRouteStep "Turn right" 80 (77.60, 12.97) false]
                  0 true true)
               (77.59, 12.97)))
  = Some (Speak "Turn left").
Proof.
  refine (proj1 (near_step_is_announced
    (mkNavState
       [mkRouteStep "Turn left" 120 (77.59, 12.97) false;
        mkRouteStep "Turn right" 80 (77.60, 12.97) false]
       0 true true)
    (77.59, 12.97)
    (mkRouteStep "Turn left" 120 (77.59, 12.97) false)
    eq_refl eq_refl eq_refl eq_refl _)).
  cbn [location]. rewrite distance_same_point. lra.
Defined.

(** C5 as worded leaves out the guard on the [announced] flag.  On a
    one-step route the update at the trigger location announces the
    step and leaves the cursor on it; until the arrival callback runs
    the session is still navigating with voice on, and a second update
    at the same place, 0 m from the step, speaks nothing and changes
    nothing. *)
Lemma announced_step_is_not_repeated :
  let step := mkRouteStep "You have arrived" 40 (77.6, 12.9) in
  let st :=
    fst (checkAndAnnounceDirection
           (mkNavState [step false] 0 true true) (77.6, 12.9)) in
  st = mkNavState [step true] 0 true true
  /\ routeSteps st <> []
  /\ isNavigating st = true
  /\ voiceEnabled st = true
  /\ routeSteps st !! currentStepIndex st = Some (step true)
  /\ getDistanceBetweenPoints (77.6, 12.9) (location (step true)) < 30
  /\ checkAndAnnounceDirection st (77.6, 12.9) = (st, []).
Proof.
  cbv zeta.
  assert (Hnear : getDistanceBetweenPoints (77.6, 12.9) (77.6, 12.9) < 30)
    by (rewrite distance_same_point; lra).
  assert (Hr : ready
                 (mkNavState
                    [mkRouteStep "You have arrived" 40 (77.6, 12.9) false]
                    0 true true)
                 (mkRouteStep "You have arrived" 40 (77.6, 12.9) false))
    by (constructor; reflexivity).
  rewrite (step_within_30 _ (77.6, 12.9) _ Hr Hnear).
  cbn. repeat split; try reflexivity; [discriminate|exact Hnear].
Qed.

(** No update touches a step that is already announced. *)
Lemma announced_is_kept (st : NavState) (pos : coord) (j : nat)
    (s : RouteStep) :
  routeSteps st !! j = Some s ->
  announced s = true ->
  routeSteps (fst (checkAndAnnounceDirection st pos)) !! j = Some s.
Proof.
  intros Hj Hs. unfold checkAndAnnounceDirection.
  destruct (_ || _ || _); [exact Hj|].
  destruct (routeSteps st !! currentStepIndex st) as [step|] eqn:Hc; [|exact Hj].
  destruct (announced step) eqn:Ha; [exact Hj|].
  assert (Hne : currentStepIndex st <> j).
  { intros E. rewrite E, Hj in Hc. inversion Hc; subst. congruence. }
  destruct (Rlt_dec _ 30).
  - destruct (_ <? _)%Z; cbn [fst routeSteps];
      rewrite list_lookup_alter_ne by exact Hne; exact Hj.
  - destruct (Rlt_dec _ 50); exact Hj.
Qed.

(** C6: once an update has marked a step announced, a further update at
    the same position says nothing for that step.  On the last step the
    update does nothing at all; otherwise the cursor has moved on, the
    step stays marked, and whatever is spoken is the next step's
    instruction or pre-announcement. *)
Theorem announced_step_is_silent (st : NavState) (pos : coord)
    (step : RouteStep) :
  isNavigating st = true ->
  voiceEnabled st = true ->
  routeSteps st !! currentStepIndex st = Some step ->
  announced step = false ->
  getDistanceBetweenPoints pos (location step) < 30 ->
  routeSteps (fst (checkAndAnnounceDirection st pos)) !! currentStepIndex st
  = Some (markAnnounced step)
  /\ routeSteps
       (fst (checkAndAnnounceDirection
               (fst (checkAndAnnounceDirection st pos)) pos))
       !! currentStepIndex st
     = Some (markAnnounced step)
  /\ (routeSteps st !! S (currentStepIndex st) = None ->
      checkAndAnnounceDirection (fst (checkAndAnnounceDirection st pos)) pos
      = (fst (checkAndAnnounceDirection st pos), []))
  /\ (forall next, routeSteps st !! S (currentStepIndex st) = Some next ->
      currentStepIndex (fst (checkAndAnnounceDirection st pos))
      = S (currentStepIndex st)
      /\ forall text,
           In (Speak text)
             (snd (checkAndAnnounceDirection
                     (fst (checkAndAnnounceDirection st pos)) pos)) ->
           text = instruction next
           \/ text = preAnnouncement
                       (getDistanceBetweenPoints pos (location next)) next).
Proof.
  intros Hn Hv Hs Ha Hd.
  assert (Hr : ready st step) by (constructor; assumption).
  destruct (announce_state st pos step Hr Hd) as (Hsteps & _ & _ & Hidx).
  assert (Hmark : routeSteps (fst (checkAndAnnounceDirection st pos))
                    !! currentStepIndex st = Some (markAnnounced step)).
  { rewrite Hsteps, list_lookup_alter_eq, Hs. reflexivity. }
  rewrite Nat.add_1_r in Hidx.
  split; [exact Hmark|].
  split; [apply announced_is_kept; [exact Hmark|reflexivity]|].
  split.
  - intros Hnone. rewrite Hnone in Hidx.
    apply announced_current_is_silent with (step := markAnnounced step);
      [rewrite Hidx; exact Hmark|reflexivity].
  - intros next Hnext. rewrite Hnext in Hidx. split; [exact Hidx|].
    intros text Hin.
    apply speech_is_about_current in Hin as (step' & Hcur & _ & Htext).
    rewrite Hidx, Hsteps, list_lookup_alter_ne, Hnext in Hcur by lia.
    inversion Hcur; subst. exact Htext.
Qed.

Lemma announced_step_is_silent_witness :
  checkAndAnnounceDirection
    (fst (checkAndAnnounceDirection
            (mkNavState [mkRouteStep "You have arrived" 40 (77.6, 12.9) false]
               0 true true)
            (77.6, 12.9)))
    (77.6, 12.9)
  = (fst (checkAndAnnounceDirection
            (mkNavState [mkRouteStep "You have arrived" 40 (77.6, 12.9) false]
               0 true true)
            (77.6, 12.9)),
     []).
Proof.
  refine (proj1 (proj2 (proj2 (announced_step_is_silent
    (mkNavState [mkRouteStep "You have arrived" 40 (77.6, 12.9) false]
       0 true true)
    (77.6, 12.9)
    (mkRouteStep "You have arrived" 40 (77.6, 12.9) false)
    eq_refl eq_refl eq_refl eq_refl _))) eq_refl).
  cbn [location]. rewrite distance_same_point. lra.
Defined.

(** The state only changes on the branch closer than 30 m. *)
Lemma far_update_keeps_state (st : NavState) (pos : coord) (step : RouteStep) :
  routeSteps st !! currentStepIndex st = Some step ->
  30 <= getDistanceBetweenPoints pos (location step) ->
  fst (checkAndAnnounceDirection st pos) = st.
Proof.
  intros Hs Hd. unfold checkAndAnnounceDirection.
  destruct (_ || _ || _); [reflexivity|].
  rewrite Hs. destruct (announced step); [reflexivity|].
  destruct (Rlt_dec _ 30); [lra|].
  destruct (Rlt_dec _ 50); [destruct (negb false)|]; reflexivity.
Qed.

(** C7: with the step under the cursor not yet announced and the
    distance in the band 30 <= d < 50, an update changes no state: the
    route steps with their flags, the cursor and the session switches
    are as before.  With navigation active and voice enabled it speaks
    exactly the pre-announcement built from the rounded distance and the
    instruction, and any later update in the band speaks again. *)
Theorem approach_band_only_speaks (st : NavState) (pos : coord)
    (step : RouteStep) :
  routeSteps st !! currentStepIndex st = Some step ->
  announced step = false ->
  30 <= getDistanceBetweenPoints pos (location step) < 50 ->
  fst (checkAndAnnounceDirection st pos) = st
  /\ (isNavigating st = true ->
      voiceEnabled st = true ->
      snd (checkAndAnnounceDirection st pos)
      = [Speak ("In "
                ++ JsString.ofZ
                     (round (getDistanceBetweenPoints pos (location step)))
                ++ " meters, " ++ instruction step)%string]
      /\ forall pos',
           30 <= getDistanceBetweenPoints pos' (location step) < 50 ->
           checkAndAnnounceDirection (fst (checkAndAnnounceDirection st pos)) pos'
           = (st, [Speak (preAnnouncement
                            (getDistanceBetweenPoints pos' (location step))
                            step)])).
Proof.
  intros Hs Ha Hd.
  split; [apply (far_update_keeps_state st pos step Hs); lra|].
  intros Hn Hv.
  assert (Hr : ready st step) by (constructor; assumption).
  rewrite (step_within_50 st pos step Hr Hd). cbn [fst snd].
  split; [reflexivity|].
  intros pos' Hd'. apply (step_within_50 st pos' step Hr Hd').
Qed.

(** A point 11 * 180 / 6371000 degrees of latitude north of another is
    11 * PI meters away, between 30 and 50. *)
Lemma distance_in_band (lng lat : R) :
  30 <= getDistanceBetweenPoints (lng, lat) (lng, lat + 11 * 180 / 6371000) < 50.
Proof.
  rewrite distance_along_meridian by lra.
  replace (6371000 * ((lat + 11 * 180 / 6371000 - lat) * PI / 180))
    with (11 * PI) by field.
  pose proof PI2_3_2. pose proof PI_4. lra.
Qed.

Lemma approach_band_only_speaks_witness :
  fst (checkAndAnnounceDirection
         (mkNavState
            [mkRouteStep "Turn left" 120 (0, 0 + 11 * 180 / 6371000) false]
            0 true true)
         (0, 0))
  = mkNavState
      [mkRouteStep "Turn left" 120 (0, 0 + 11 * 180 / 6371000) false]
      0 true true.
Proof.
  refine (proj1 (approach_band_only_speaks
    (mkNavState
       [mkRouteStep "Turn left" 120 (0, 0 + 11 * 180 / 6371000) false]
       0 true true)
    (0, 0)
    (mkRouteStep "Turn left" 120 (0, 0 + 11 * 180 / 6371000) false)
    eq_refl eq_refl _)).
  cbn [location]. apply distance_in_band.
Defined.

End RouteAnnouncerFacts.


(* ===================================================================== *)
(** * Further properties of the transcript parser *)
(* ===================================================================== *)

Section ParserDigits.
Import JsString Regex TranscriptParser.

Lemma append_empty_r (s : string) : (s ++ "")%string = s.
Proof. induction s as [|a s IH]; simpl; [reflexivity|rewrite IH; reflexivity]. Qed.

Lemma append_assoc (s t u : string) :
  ((s ++ t) ++ u)%string = (s ++ (t ++ u))%string.
Proof. induction s as [|a s IH]; simpl; [reflexivity|rewrite IH; reflexivity]. Qed.

Lemma length_append (s t : string) :
  String.length (s ++ t) = (String.length s + String.length t)%nat.
Proof. induction s as [|a s IH]; simpl; [reflexivity|rewrite IH; reflexivity]. Qed.

Lemma hasDigit_append (s t : string) :
  hasDigit (s ++ t) = hasDigit s || hasDigit t.
Proof.
  induction s as [|a s IH]; simpl; [reflexivity|].
  rewrite IH, orb_assoc. reflexivity.
Qed.

Lemma starMatch_consumes (c : atom) (s : string) (caps : captures) (k : kont) res :
  starMatch c s caps k = Some res ->
  exists pre s1, s = (pre ++ s1)%string /\ k s1 caps = Some res.
Proof.
  revert res. induction s as [|a s IH]; simpl; intros res H.
  - exists EmptyString, EmptyString. auto.
  - destruct (atomMatches c a).
    + unfold orElse in H. destruct (starMatch c s caps k) eqn:E.
      * inversion H; subst. destruct (IH _ eq_refl) as (pre & s1 & -> & Hk).
        exists (String a pre), s1. auto.
      * exists EmptyString, (String a s). auto.
    + exists EmptyString, (String a s). auto.
Qed.

(** A successful match splits its input into the text it took and the
    rest it handed on; a pattern that needs a digit took one. *)
Lemma rmatch_consumes (r : regex) :
  forall (s : string) (caps : captures) (k : kont) res,
    rmatch r s caps k = Some res ->
    exists pre s1 caps1,
      s = (pre ++ s1)%string
      /\ k s1 caps1 = Some res
      /\ (needsDigit r = true -> hasDigit pre = true).
Proof.
  induction r as [|c|r1 IH1 r2 IH2|r1 IH1 r2 IH2|r1 IH1|c|g r1 IH1];
    cbn [rmatch]; intros s caps k res H.
  - exists EmptyString, s, caps. repeat split; [exact H|discriminate].
  - destruct s as [|a s]; [discriminate|].
    destruct (atomMatches c a) eqn:Ea; [|discriminate].
    exists (String a EmptyString), s, caps. repeat split; [exact H|].
    destruct c; cbn; try discriminate. intros _. cbn in Ea. rewrite Ea. reflexivity.
  - apply IH1 in H as (pre1 & s1 & caps1 & -> & H & D1).
    apply IH2 in H as (pre2 & s2 & caps2 & -> & H & D2).
    exists (pre1 ++ pre2)%string, s2, caps2.
    split; [symmetry; apply append_assoc|]. split; [exact H|].
    cbn. intros Hn. rewrite hasDigit_append.
    apply orb_true_iff in Hn as [Hn|Hn]; [rewrite D1|rewrite D2];
      auto using orb_true_r.
  - unfold orElse in H. cbn [needsDigit].
    destruct (rmatch r1 s caps k) eqn:E.
    + inversion H; subst. apply IH1 in E as (pre & s1 & caps1 & -> & E & D).
      exists pre, s1, caps1. repeat split; [exact E|].
      intros Hn. apply andb_true_iff in Hn as [Hn _]. auto.
    + apply IH2 in H as (pre & s1 & caps1 & -> & H & D).
      exists pre, s1, caps1. repeat split; [exact H|].
      intros Hn. apply andb_true_iff in Hn as [_ Hn]. auto.
  - unfold orElse in H. destruct (rmatch r1 s caps k) eqn:E.
    + inversion H; subst. apply IH1 in E as (pre & s1 & caps1 & -> & E & _).
      exists pre, s1, caps1. repeat split; [exact E|discriminate].
    + exists EmptyString, s, caps. repeat split; [exact H|discriminate].
  - apply starMatch_consumes in H as (pre & s1 & -> & H).
    exists pre, s1, caps. repeat split; [exact H|discriminate].
  - apply IH1 in H as (pre & s1 & caps1 & -> & H & D).
    eexists pre, s1, _. repeat split; [exact H|exact D].
Qed.

Lemma matchHere_needs_digit (r : regex) (s : string) :
  needsDigit r = true -> hasDigit s = false -> matchHere r s = None.
Proof.
  intros Hn Hs. destruct (matchHere r s) as [res|] eqn:E; [|reflexivity].
  apply rmatch_consumes in E as (pre & s1 & caps1 & -> & _ & D).
  rewrite hasDigit_append, (D Hn) in Hs. discriminate.
Qed.

Lemma exec_needs_digit (r : regex) (s : string) :
  needsDigit r = true -> hasDigit s = false -> exec r s = None.
Proof.
  intros Hn. induction s as [|a s IH]; intros Hs.
  - cbn [exec]. rewrite matchHere_needs_digit by assumption. reflexivity.
  - cbn [exec]. rewrite matchHere_needs_digit by assumption.
    apply IH. cbn in Hs. apply orb_false_elim in Hs as [_ Hs]. exact Hs.
Qed.

(** X1: a transcript without a digit gets the defaults: the time is
    09:00 and not explicit, the lead is 10 minutes. *)
Theorem digit_free_transcript_gets_defaults (transcript : string) :
  hasDigit transcript = false ->
  extractTime transcript = mkTime (Some 9) 0 false
  /\ parsedTime (parse transcript) = "09:00"
  /\ timeWasExplicit (parse transcript) = false
  /\ parsedReminder (parse transcript) = Some 10.
Proof.
  intros Hs.
  assert (Ht : extractTime transcript = mkTime (Some 9) 0 false).
  { unfold extractTime, timePatterns, firstTime.
    rewrite !exec_needs_digit by (exact Hs || reflexivity). reflexivity. }
  unfold parse. cbn [parsedTime timeWasExplicit parsedReminder].
  rewrite Ht. repeat split.
  unfold extractReminderMinutes, reminderPatterns, firstReminder.
  rewrite !exec_needs_digit by (exact Hs || reflexivity). reflexivity.
Qed.

Lemma digit_free_transcript_gets_defaults_witness :
  parsedTime (parse "add schedule walk the dog") = "09:00".
Proof.
  refine (proj1 (proj2 (digit_free_transcript_gets_defaults
                          "add schedule walk the dog" _))).
  vm_compute. reflexivity.
Defined.

(** The scan of the title's [replace] never lets a digit through: at a
    digit the bare-number alternative matches and takes at least that
    digit. *)
Lemma removeFrom_titleNoise_no_digit (s : string) :
  forall skip, hasDigit (removeFrom titleNoise skip s) = false.
Proof.
  induction s as [|a s IH]; intros skip; [reflexivity|].
  cbn [removeFrom]. destruct skip as [|n]; [|apply IH].
  destruct (isDigit a) eqn:Ea.
  - destruct (title_digit_goes_to_bare_number a s Ea) as [Heq Hsome].
    rewrite Heq.
    destruct (matchHere bareNumber (String a s)) as [[rest caps]|] eqn:E;
      [|contradiction].
    apply rmatch_consumes in E as (pre & s1 & caps1 & Hsplit & Hk & D).
    inversion Hk; subst s1 caps1.
    specialize (D eq_refl).
    rewrite Hsplit, length_append.
    destruct pre as [|b pre]; [discriminate|].
    cbn [String.length].
    replace (S (String.length pre) + String.length rest - String.length rest)%nat
      with (S (String.length pre)) by lia.
    apply IH.
  - destruct (matchHere titleNoise (String a s)) as [[rest caps]|].
    + destruct (String.length (String a s) - String.length rest)%nat;
        [cbn [hasDigit]; rewrite Ea; apply IH|apply IH].
    + cbn [hasDigit]. rewrite Ea. apply IH.
Qed.

Lemma trimStart_no_digit (s : string) :
  hasDigit s = false -> hasDigit (trimStart s) = false.
Proof.
  induction s as [|a s IH]; cbn; [reflexivity|].
  intros H. destruct (isSpace a); [|exact H].
  apply IH. apply orb_false_elim in H as [_ H]. exact H.
Qed.

Lemma trimEnd_no_digit (s : string) :
  hasDigit s = false -> hasDigit (trimEnd s) = false.
Proof.
  induction s as [|a s IH]; cbn [trimEnd hasDigit]; [reflexivity|].
  intros H. apply orb_false_elim in H as [Ha Hs]. specialize (IH Hs).
  destruct (trimEnd s) as [|b t].
  - destruct (isSpace a); cbn; [reflexivity|rewrite Ha; reflexivity].
  - cbn [hasDigit] in *. rewrite Ha, IH. reflexivity.
Qed.

Lemma toUpperChar_no_digit (a : ascii) :
  isDigit a = false -> isDigit (toUpperChar a) = false.
Proof.
  destruct a as [[] [] [] [] [] [] [] []]; vm_compute; intros H;
    first [reflexivity | discriminate H].
Qed.

Lemma capitalize_no_digit (t : string) :
  hasDigit t = false -> hasDigit (capitalize t) = false.
Proof.
  destruct t as [|a t]; [reflexivity|].
  unfold capitalize. cbn. intros H. apply orb_false_elim in H as [Ha Ht].
  rewrite (toUpperChar_no_digit a Ha), Ht. reflexivity.
Qed.

(** X2: whatever the transcript, the extracted title contains no
    digit. *)
Theorem title_has_no_digit (transcript : string) :
  hasDigit (extractTitle transcript) = false
  /\ hasDigit (parsedTitle (parse transcript)) = false.
Proof.
  assert (H : hasDigit (extractTitle transcript) = false).
  { unfold extractTitle, strippedTitle, trim, removeAll.
    destruct (_ <? 2)%nat; [reflexivity|].
    apply capitalize_no_digit, trimEnd_no_digit, trimStart_no_digit,
      removeFrom_titleNoise_no_digit. }
  split; exact H.
Qed.

End ParserDigits.

Section TimeRoundTrip.
Import JsString Regex TranscriptParser ReminderClock SchedulePage.

Lemma timesOfDay_complete (h m : Z) :
  0 <= h < 24 -> 0 <= m < 60 -> In (h, m) timesOfDay.
Proof.
  intros Hh Hm. unfold timesOfDay. apply in_flat_map.
  exists (Z.to_nat h). split; [apply in_seq; lia|].
  apply in_map_iff. exists (Z.to_nat m).
  split; [f_equal; lia|apply in_seq; lia].
Qed.

Lemma sameTime_eq (t u : TimeOfDay) : sameTime t u = true -> t = u.
Proof.
  destruct t as [a m f], u as [b n g]. unfold sameTime. cbn.
  intros H. apply andb_true_iff in H as [H H3].
  apply andb_true_iff in H as [H1 H2].
  apply Z.eqb_eq in H2. apply Bool.eqb_prop in H3. subst.
  destruct a as [a|], b as [b|]; try discriminate; [|reflexivity].
  apply Z.eqb_eq in H1. subst. reflexivity.
Qed.

(** The first time pattern starts with a digit: it matches nowhere in
    text without digits, so such text in front of a time is skipped. *)
Lemma timePattern1_at_non_digit (a : ascii) (s : string) :
  isDigit a = false -> matchHere timePattern1 (String a s) = None.
Proof. intros Ha. unfold matchHere. cbn. rewrite Ha. reflexivity. Qed.

Lemma exec_timePattern1_skips (prefix t : string) :
  hasDigit prefix = false ->
  exec timePattern1 (prefix ++ t) = exec timePattern1 t.
Proof.
  induction prefix as [|a prefix IH]; intros H; [reflexivity|].
  cbn in H. apply orb_false_elim in H as [Ha Hp].
  change (String a prefix ++ t)%string with (String a (prefix ++ t)).
  cbn [exec]. rewrite (timePattern1_at_non_digit a _ Ha). apply IH. exact Hp.
Qed.

Lemma extractTime_skips (prefix t : string) :
  hasDigit prefix = false ->
  exec timePattern1 t <> None ->
  extractTime (prefix ++ t) = extractTime t.
Proof.
  intros Hp Ht. unfold extractTime, timePatterns, firstTime.
  rewrite (exec_timePattern1_skips prefix t Hp).
  destruct (exec timePattern1 t); [reflexivity|contradiction].
Qed.

Lemma readsBack_spec (prefix t : string) (h m : Z) :
  hasDigit prefix = false ->
  readsBack t h m = true ->
  extractTime (prefix ++ t) = mkTime (Some h) m true.
Proof.
  intros Hp Hr. unfold readsBack in Hr.
  destruct (exec timePattern1 t) as [caps|] eqn:E; [|discriminate].
  rewrite extractTime_skips by (exact Hp || rewrite E; discriminate).
  unfold extractTime, timePatterns, firstTime. rewrite E.
  apply sameTime_eq. exact Hr.
Qed.

(** The table of all 1440 times of day, checked by evaluation. *)
Lemma hhmm_table :
  forallb (fun hm => readsBack (hhmm (fst hm) (snd hm)) (fst hm) (snd hm))
    timesOfDay = true.
Proof. vm_compute. reflexivity. Qed.

Lemma formatTime_table :
  forallb (fun hm =>
             (snd hm =? 0)
             || readsBack (formatTime (hhmm (fst hm) (snd hm))) (fst hm) (snd hm))
    timesOfDay = true.
Proof. vm_compute. reflexivity. Qed.

(** X3: a time of day written as zero-padded [HH:MM], after any words
    without digits, is read back as the same hours and minutes and
    formatted to the same [HH:MM]. *)
Theorem hhmm_round_trip (prefix : string) (h m : Z) :
  hasDigit prefix = false ->
  0 <= h < 24 ->
  0 <= m < 60 ->
  extractTime (prefix ++ hhmm h m) = mkTime (Some h) m true
  /\ parsedTime (parse (prefix ++ hhmm h m)) = hhmm h m.
Proof.
  intros Hp Hh Hm.
  assert (He : extractTime (prefix ++ hhmm h m) = mkTime (Some h) m true).
  { apply readsBack_spec; [exact Hp|].
    pose proof hhmm_table as T. rewrite forallb_forall in T.
    apply (T (h, m)). apply timesOfDay_complete; assumption. }
  split; [exact He|].
  unfold parse. cbn [parsedTime]. rewrite He. reflexivity.
Qed.

Lemma hhmm_round_trip_witness :
  parsedTime (parse ("remind me to call mom at " ++ hhmm 17 5)) = "17:05".
Proof.
  refine (proj2 (hhmm_round_trip "remind me to call mom at " 17 5 _ _ _));
    [vm_compute; reflexivity|lia|lia].
Defined.

(** X4: off the full hour, the 12-hour form that [formatTime] speaks
    is read back by the parser as the 24-hour time it came from. *)
Theorem formatTime_round_trip (prefix : string) (h m : Z) :
  hasDigit prefix = false ->
  0 <= h < 24 ->
  0 < m < 60 ->
  extractTime (prefix ++ formatTime (hhmm h m)) = mkTime (Some h) m true
  /\ parsedTime (parse (prefix ++ formatTime (hhmm h m))) = hhmm h m.
Proof.
  intros Hp Hh Hm.
  assert (He : extractTime (prefix ++ formatTime (hhmm h m))
               = mkTime (Some h) m true).
  { apply readsBack_spec; [exact Hp|].
    pose proof formatTime_table as T. rewrite forallb_forall in T.
    specialize (T (h, m)). cbn [fst snd] in T.
    replace (m =? 0) with false in T by (symmetry; apply Z.eqb_neq; lia).
    apply T. apply timesOfDay_complete; lia. }
  split; [exact He|].
  unfold parse. cbn [parsedTime]. rewrite He. reflexivity.
Qed.

Lemma formatTime_round_trip_witness :
  parsedTime (parse ("Schedule added: Tea at " ++ formatTime (hhmm 20 30)))
  = "20:30".
Proof.
  refine (proj2 (formatTime_round_trip "Schedule added: Tea at " 20 30 _ _ _));
    [vm_compute; reflexivity|lia|lia].
Defined.

Example formatTime_examples :
  formatTime "20:30" = "8:30 PM" /\ formatTime "00:05" = "12:05 AM"
  /\ formatTime "12:00" = "12 PM" /\ formatTime "08:00" = "8 AM".
Proof. vm_compute. repeat split; reflexivity. Qed.

End TimeRoundTrip.

(* ===================================================================== *)
(** * Further properties of the schedule collection and the clock *)
(* ===================================================================== *)

Section ScheduleCollectionFacts.
Import JsString TranscriptParser ReminderClock SchedulePage.

Lemma deleteSchedule_fresh (target : string) (schedules : list ScheduleItem) :
  (forall s, In s schedules -> id s <> target) ->
  deleteSchedule target schedules = schedules.
Proof.
  intros H. unfold deleteSchedule.
  induction schedules as [|s l IH]; [reflexivity|].
  cbn. destruct (String.eqb_spec (id s) target) as [E|E].
  - exfalso. apply (H s); [left; reflexivity|exact E].
  - cbn. f_equal. apply IH. intros x Hx. apply H. right. exact Hx.
Qed.

(** X5: when no stored item carries the new id, deleting that id
    changes nothing, and adding an item and then deleting it by its id
    gives back the collection as it was. *)
Theorem delete_undoes_add (dateNow : Z) (schedules : list ScheduleItem)
    (title time : string) (description : option string)
    (reminderMinutes : option Z) :
  (forall s, In s schedules -> id s <> ofZ dateNow) ->
  deleteSchedule (ofZ dateNow) schedules = schedules
  /\ deleteSchedule (ofZ dateNow)
       (addSchedule dateNow schedules title time description reminderMinutes)
     = schedules.
Proof.
  intros H. split; [apply deleteSchedule_fresh; exact H|].
  unfold addSchedule, deleteSchedule. rewrite List.filter_app. cbn.
  rewrite String.eqb_refl. cbn. rewrite app_nil_r.
  apply deleteSchedule_fresh. exact H.
Qed.

Lemma delete_undoes_add_witness :
  deleteSchedule (ofZ 1700000000000)
    (addSchedule 1700000000000
       [mkScheduleItem "1" "Morning Medicine" "08:00" None (Some 10) None None;
        mkScheduleItem "2" "Lunch Reminder" "12:30" None (Some 10) None None]
       "Tea" "16:00" None (Some 5))
  = [mkScheduleItem "1" "Morning Medicine" "08:00" None (Some 10) None None;
     mkScheduleItem "2" "Lunch Reminder" "12:30" None (Some 10) None None].
Proof.
  refine (proj2 (delete_undoes_add 1700000000000
    [mkScheduleItem "1" "Morning Medicine" "08:00" None (Some 10) None None;
     mkScheduleItem "2" "Lunch Reminder" "12:30" None (Some 10) None None]
    "Tea" "16:00" None (Some 5) _)).
  intros s [<-|[<-|[]]]; vm_compute; discriminate.
Defined.

Lemma checkSchedule_keeps_id (now : Z) (s : ScheduleItem) :
  id (fst (checkSchedule now s)) = id s.
Proof.
  unfold checkSchedule.
  destruct (advanceDue now s); [reflexivity|].
  destruct (exactDue now s); reflexivity.
Qed.

(** X6: deleting an item and ticking the clock commute on the stored
    collection: the tick never alters an id, and what it does to one
    item does not depend on the others. *)
Theorem delete_commutes_with_tick (now : Z) (target : string)
    (schedules : list ScheduleItem) :
  fst (checkSchedules now (deleteSchedule target schedules))
  = deleteSchedule target (fst (checkSchedules now schedules)).
Proof.
  rewrite !checkSchedules_fst. unfold deleteSchedule.
  induction schedules as [|s l IH]; [reflexivity|].
  cbn [List.filter fmap list_fmap]. rewrite checkSchedule_keeps_id.
  destruct (negb (id s =? target)%string); cbn [fmap list_fmap];
    [f_equal|]; exact IH.
Qed.

Lemma splitColon_no_colon (s cur : string) :
  hasColon s = false -> splitColon s cur = [(cur ++ s)%string].
Proof.
  revert cur. induction s as [|a s IH]; intros cur H; cbn.
  - rewrite append_empty_r. reflexivity.
  - cbn in H. apply orb_false_elim in H as [Ha Hs]. rewrite Ha.
    rewrite IH by exact Hs. rewrite append_assoc. reflexivity.
Qed.

(** X7: an item whose time string has no colon never fires and is never
    changed, at any clock reading. *)
Theorem time_without_colon_never_fires (now : Z) (schedule : ScheduleItem) :
  hasColon (time schedule) = false ->
  timeDiffMinutes now schedule = None
  /\ checkSchedule now schedule = (schedule, None).
Proof.
  intros H.
  assert (Hd : timeDiffMinutes now schedule = None).
  { unfold timeDiffMinutes, scheduleHoursMinutes.
    rewrite splitColon_no_colon by exact H. reflexivity. }
  split; [exact Hd|].
  unfold checkSchedule, advanceDue, exactDue. rewrite Hd. cbn.
  rewrite !andb_false_r. reflexivity.
Qed.

Lemma time_without_colon_never_fires_witness :
  checkSchedule (clock 20000 12 0 0)
    (mkScheduleItem "3" "Lunch" "1200" None (Some 10) None None)
  = (mkScheduleItem "3" "Lunch" "1200" None (Some 10) None None, None).
Proof.
  exact (proj2 (time_without_colon_never_fires (clock 20000 12 0 0)
    (mkScheduleItem "3" "Lunch" "1200" None (Some 10) None None) eq_refl)).
Defined.

(** X8: in milliseconds, the exact notice of an item with a readable
    time and [notified] unset fires exactly at the clock readings from
    just under one minute before the scheduled instant of the day up to
    one minute after it. *)
Theorem exact_notice_window (now h m : Z) (schedule : ScheduleItem) :
  scheduleHoursMinutes (time schedule) = Some (h, m) ->
  truthy (notified schedule) = false ->
  (fires ExactNotice now schedule <->
   setHours now h m - 60000 < now <= setHours now h m + 60000).
Proof.
  intros Ht Hn.
  rewrite fires_exact_iff.
  assert (Hd : timeDiffMinutes now schedule
               = Some ((setHours now h m - now) / 60000)).
  { unfold timeDiffMinutes. rewrite Ht. reflexivity. }
  set (T := setHours now h m) in *.
  split.
  - intros [_ He]. apply exactDue_spec in He as [_ (d & Hd' & H1 & H2)].
    rewrite Hd in Hd'. inversion Hd'; subst d.
    pose proof (Z.div_mod (T - now) 60000 ltac:(lia)).
    pose proof (Z.mod_pos_bound (T - now) 60000 ltac:(lia)). lia.
  - intros [H1 H2].
    assert (Hr : -2 < (T - now) / 60000 <= 0).
    { pose proof (Z.div_mod (T - now) 60000 ltac:(lia)).
      pose proof (Z.mod_pos_bound (T - now) 60000 ltac:(lia)). lia. }
    split.
    + destruct (advanceDue now schedule) eqn:Ha; [|reflexivity].
      apply advanceDue_spec in Ha as [_ (d & Hd' & H3 & _)].
      rewrite Hd in Hd'. inversion Hd'; subst d. lia.
    + apply exactDue_spec. split; [exact Hn|]. eauto.
Qed.

Lemma exact_notice_window_witness :
  fires ExactNotice (clock 20000 13 59 30)
    (mkScheduleItem "1" "Gym" "14:00" None (Some 5) (Some true) None).
Proof.
  refine (proj2 (exact_notice_window (clock 20000 13 59 30) 14 0
    (mkScheduleItem "1" "Gym" "14:00" None (Some 5) (Some true) None)
    eq_refl eq_refl) _).
  vm_compute. split; [reflexivity|discriminate].
Defined.

(** X9: in milliseconds, the advance notice of an item with a readable
    time and [reminded] unset fires exactly while the scheduled instant
    of the day is at least one minute and less than lead + 1 minutes
    ahead. *)
Theorem advance_notice_window (now h m : Z) (schedule : ScheduleItem) :
  scheduleHoursMinutes (time schedule) = Some (h, m) ->
  truthy (reminded schedule) = false ->
  (fires AdvanceNotice now schedule <->
   60000 <= setHours now h m - now < (leadMinutes schedule + 1) * 60000).
Proof.
  intros Ht Hn.
  rewrite fires_advance_iff, advanceDue_spec.
  assert (Hd : timeDiffMinutes now schedule
               = Some ((setHours now h m - now) / 60000)).
  { unfold timeDiffMinutes. rewrite Ht. reflexivity. }
  set (T := setHours now h m) in *. set (L := leadMinutes schedule).
  pose proof (Z.div_mod (T - now) 60000 ltac:(lia)).
  pose proof (Z.mod_pos_bound (T - now) 60000 ltac:(lia)).
  split.
  - intros [_ (d & Hd' & H1 & H2)].
    rewrite Hd in Hd'. inversion Hd'; subst d. lia.
  - intros [H1 H2]. split; [exact Hn|].
    eexists. split; [exact Hd|]. lia.
Qed.

Lemma advance_notice_window_witness :
  fires AdvanceNotice (clock 20000 13 49 1)
    (mkScheduleItem "1" "Gym" "14:00" None (Some 10) None None).
Proof.
  refine (proj2 (advance_notice_window (clock 20000 13 49 1) 14 0
    (mkScheduleItem "1" "Gym" "14:00" None (Some 10) None None)
    eq_refl eq_refl) _).
  vm_compute. split; [discriminate|reflexivity].
Defined.

End ScheduleCollectionFacts.

Section NoRepeatedNotice.
Import ReminderClock.

Lemma flagAt_after_tick (flag : ScheduleItem -> option bool) (i : nat)
    (now : Z) (schedules : list ScheduleItem) :
  flagAt flag i (fst (checkSchedules now schedules))
  = match schedules !! i with
    | Some s => truthy (flag (fst (checkSchedule now s)))
    | None => false
    end.
Proof.
  unfold flagAt. rewrite checkSchedules_lookup.
  destruct (schedules !! i); reflexivity.
Qed.

Lemma advance_at_most_once (i : nat) (nows : list Z) :
  forall schedules : list ScheduleItem,
    (length (List.filter isAdvance (firedAt i nows schedules))
     <= if flagAt reminded i schedules then 0 else 1)%nat.
Proof.
  induction nows as [|now rest IH]; intros schedules; cbn [firedAt].
  - cbn. lia.
  - specialize (IH (fst (checkSchedules now schedules))).
    rewrite flagAt_after_tick in IH.
    rewrite List.filter_app, length_app.
    set (n := length (List.filter isAdvance (firedAt i rest _))) in *.
    clearbody n.
    unfold flagAt. destruct (schedules !! i) as [s|]; cbn [mbind option_bind].
    + unfold checkSchedule in *.
      destruct (advanceDue now s) eqn:Ha; cbn [fst snd] in *.
      * apply advanceDue_spec in Ha as [Hr _]. rewrite Hr.
        cbn in *. lia.
      * destruct (exactDue now s); cbn in *;
          destruct (truthy (reminded s)); lia.
    + cbn. lia.
Qed.

Lemma exact_at_most_once (i : nat) (nows : list Z) :
  forall schedules : list ScheduleItem,
    (length (List.filter isExact (firedAt i nows schedules))
     <= if flagAt notified i schedules then 0 else 1)%nat.
Proof.
  induction nows as [|now rest IH]; intros schedules; cbn [firedAt].
  - cbn. lia.
  - specialize (IH (fst (checkSchedules now schedules))).
    rewrite flagAt_after_tick in IH.
    rewrite List.filter_app, length_app.
    set (n := length (List.filter isExact (firedAt i rest _))) in *.
    clearbody n.
    unfold flagAt. destruct (schedules !! i) as [s|]; cbn [mbind option_bind].
    + unfold checkSchedule in *.
      destruct (advanceDue now s) eqn:Ha; cbn [fst snd] in *.
      * cbn in *. destruct (truthy (notified s)); lia.
      * destruct (exactDue now s) eqn:He; cbn [fst snd] in *.
        -- apply exactDue_spec in He as [Hn _]. rewrite Hn. cbn in *. lia.
        -- cbn in *. destruct (truthy (notified s)); lia.
    + cbn. lia.
Qed.

Lemma kinds_split (l : list NoticeKind) :
  length l
  = (length (List.filter isAdvance l) + length (List.filter isExact l))%nat.
Proof.
  induction l as [|k l IH]; [reflexivity|]. destruct k; cbn; lia.
Qed.

(** X10: along any sequence of ticks, whatever the clock readings, an
    item receives at most one advance notice and at most one exact
    notice, so at most two notices in all. *)
Theorem no_notice_is_repeated (i : nat) (nows : list Z)
    (schedules : list ScheduleItem) :
  (length (List.filter isAdvance (firedAt i nows schedules)) <= 1)%nat
  /\ (length (List.filter isExact (firedAt i nows schedules)) <= 1)%nat
  /\ (length (firedAt i nows schedules) <= 2)%nat.
Proof.
  pose proof (advance_at_most_once i nows schedules) as Ha.
  pose proof (exact_at_most_once i nows schedules) as He.
  pose proof (kinds_split (firedAt i nows schedules)) as Hsum.
  destruct (flagAt reminded i schedules), (flagAt notified i schedules); lia.
Qed.

End NoRepeatedNotice.

(* ===================================================================== *)
(** * The first reminder check against the two-flag one *)
(* ===================================================================== *)

Section LegacyClockFacts.
Import JsString TranscriptParser ReminderClock LegacyClock.







End LegacyClockFacts.

(* ===================================================================== *)
(** * Further properties of the distance and of a navigation session *)
(* ===================================================================== *)

Section MoreDistanceFacts.
Import RouteAnnouncer.
Local Open Scope R_scope.

(** X12: the distance does not depend on the order of its two points. *)
Theorem distance_is_symmetric (p q : coord) :
  getDistanceBetweenPoints p q = getDistanceBetweenPoints q p.
Proof.
  unfold getDistanceBetweenPoints.
  replace ((snd q - snd p) * PI / 180 / 2)
    with (- ((snd p - snd q) * PI / 180 / 2)) by field.
  replace ((fst q - fst p) * PI / 180 / 2)
    with (- ((fst p - fst q) * PI / 180 / 2)) by field.
  rewrite !sin_neg.
  set (u := sin ((snd p - snd q) * PI / 180 / 2)).
  set (v := sin ((fst p - fst q) * PI / 180 / 2)).
  set (c1 := cos (snd p * PI / 180)). set (c2 := cos (snd q * PI / 180)).
  replace (- u * - u + c1 * c2 * - v * - v) with (u * u + c2 * c1 * v * v)
    by ring.
  reflexivity.
Qed.



(** A partial sum of the alternating series: PI is below 3.29. *)
Lemma PI_below_329 : PI < 3.29.
Proof.
  pose proof (PI_ineq 3) as [_ H].
  unfold sum_f_R0, tg_alt, PI_tg in H. simpl in H. lra.
Qed.

(** X14: along a meridian the distance grows with the difference of
    latitude at 111 km per degree, to within 5 per cent. *)
Theorem meridian_degree_is_111_km (lng lat delta : R) :
  0 <= delta < 180 ->
  0.95 * 111000 * delta
  <= getDistanceBetweenPoints (lng, lat) (lng, lat + delta)
  <= 1.05 * 111000 * delta.
Proof.
  intros Hd. rewrite distance_along_meridian by lra.
  replace (lat + delta - lat) with delta by ring.
  pose proof PI2_3_2. pose proof PI_below_329.
  assert (H3 : 3 * delta <= PI * delta) by (apply Rmult_le_compat_r; lra).
  assert (H4 : PI * delta <= 3.29 * delta) by (apply Rmult_le_compat_r; lra).
  lra.
Qed.

Lemma meridian_degree_is_111_km_witness :
  0.95 * 111000 * 0.001
  <= getDistanceBetweenPoints (77.6, 12.9) (77.6, 12.9 + 0.001)
  <= 1.05 * 111000 * 0.001.
Proof.
  apply (meridian_degree_is_111_km 77.6 12.9 0.001). lra.
Defined.

End MoreDistanceFacts.

Section NavigationSessionFacts.
Import RouteAnnouncer NavigationSession.

Lemma maneuverOf_markAnnounced (step : RouteStep) :
  maneuverOf (markAnnounced step) = maneuverOf step.
Proof. reflexivity. Qed.

Lemma maneuvers_after_mark (i : nat) (steps : list RouteStep) :
  maneuverOf <$> alter markAnnounced i steps = maneuverOf <$> steps.
Proof.
  apply list_eq. intros j. rewrite !list_lookup_fmap.
  destruct (decide (i = j)) as [->|Hne].
  - rewrite list_lookup_alter_eq. destruct (steps !! j); reflexivity.
  - rewrite list_lookup_alter_ne by exact Hne. reflexivity.
Qed.

(** Marking the step under the cursor and moving on, or staying on the
    last step, keeps the route in order. *)
Lemma orderly_after_mark (st : NavState) (step : RouteStep) :
  orderly st ->
  routeSteps st !! currentStepIndex st = Some step ->
  orderly
    (mkNavState (alter markAnnounced (currentStepIndex st) (routeSteps st))
       (if bool_decide
             (is_Some (routeSteps st !! (currentStepIndex st + 1)%nat))
        then (currentStepIndex st + 1)%nat else currentStepIndex st)
       (isNavigating st) (voiceEnabled st)).
Proof.
  intros [Hrange Hflags] Hs. unfold orderly. cbn [routeSteps currentStepIndex].
  rewrite length_alter.
  pose proof (lookup_lt_Some _ _ _ Hs) as Hlt.
  destruct (routeSteps st !! (currentStepIndex st + 1)%nat) as [next|] eqn:E.
  - rewrite bool_decide_eq_true_2 by eauto.
    pose proof (lookup_lt_Some _ _ _ E) as Hlt'.
    split; [left; exact Hlt'|].
    intros j s Hj.
    destruct (decide (currentStepIndex st = j)) as [<-|Hne].
    + rewrite list_lookup_alter_eq, Hs in Hj. inversion Hj; subst.
      split; [reflexivity|lia].
    + rewrite list_lookup_alter_ne in Hj by exact Hne.
      destruct (Hflags j s Hj) as [H1 H2]. split; intros H; [apply H1|apply H2]; lia.
  - rewrite bool_decide_eq_false_2 by (intros [x Hx]; discriminate).
    split; [left; exact Hlt|].
    intros j s Hj.
    destruct (decide (currentStepIndex st = j)) as [<-|Hne].
    + split; intros H; lia.
    + rewrite list_lookup_alter_ne in Hj by exact Hne.
      apply (Hflags j s Hj).
Qed.

Lemma update_shape (st : NavState) (pos : coord) :
  fst (checkAndAnnounceDirection st pos) = st
  \/ exists step,
       routeSteps st !! currentStepIndex st = Some step
       /\ fst (checkAndAnnounceDirection st pos)
          = mkNavState
              (alter markAnnounced (currentStepIndex st) (routeSteps st))
              (if bool_decide
                    (is_Some (routeSteps st !! (currentStepIndex st + 1)%nat))
               then (currentStepIndex st + 1)%nat else currentStepIndex st)
              (isNavigating st) (voiceEnabled st).
Proof.
  unfold checkAndAnnounceDirection.
  destruct (_ || _ || _); [left; reflexivity|].
  destruct (routeSteps st !! currentStepIndex st) as [step|] eqn:Hs;
    [|left; reflexivity].
  destruct (announced step); [left; reflexivity|].
  destruct (Rlt_dec _ 30).
  - right. exists step. split; [reflexivity|].
    rewrite later_step_test.
    destruct (bool_decide _); reflexivity.
  - left. destruct (Rlt_dec _ 50); reflexivity.
Qed.

Lemma update_keeps_order (st : NavState) (pos : coord) :
  orderly st ->
  orderly (fst (checkAndAnnounceDirection st pos))
  /\ maneuverOf <$> routeSteps (fst (checkAndAnnounceDirection st pos))
     = maneuverOf <$> routeSteps st.
Proof.
  intros Ho. destruct (update_shape st pos) as [->|(step & Hs & ->)].
  - auto.
  - split; [apply (orderly_after_mark st step); assumption|].
    cbn [routeSteps]. apply maneuvers_after_mark.
Qed.

Lemma track_keeps_order (positions : list coord) :
  forall st, orderly st ->
    orderly (track positions st)
    /\ maneuverOf <$> routeSteps (track positions st)
       = maneuverOf <$> routeSteps st.
Proof.
  induction positions as [|pos rest IH]; intros st Ho; cbn [track]; [auto|].
  destruct (isNavigating st); [|apply IH; exact Ho].
  destruct (update_keeps_order st pos Ho) as [Ho' Hm].
  destruct (IH _ Ho') as [H1 H2]. split; [exact H1|].
  rewrite H2. exact Hm.
Qed.

Lemma setRoute_orderly (steps : list Maneuver) (st : NavState) :
  orderly (setRoute steps st).
Proof.
  unfold orderly, setRoute. cbn [routeSteps currentStepIndex]. split.
  - destruct steps; [right; auto|left; cbn; lia].
  - intros j s Hj. split; [lia|]. intros _.
    rewrite list_lookup_fmap in Hj.
    destruct (steps !! j); inversion Hj. reflexivity.
Qed.

(** X15: from the moment a route is set, along any sequence of position
    updates, the session stays in route order: the cursor is on a
    step, exactly the steps before it (and possibly the last one under
    it) are announced, none after it; and the instructions, distances
    and locations of the steps are those the route came with. *)
Theorem route_order_is_kept (steps : list Maneuver) (st0 : NavState)
    (positions : list coord) :
  orderly (track positions (setRoute steps st0))
  /\ maneuverOf <$> routeSteps (track positions (setRoute steps st0))
     = (fun m => (maneuverInstruction m, maneuverDistance m, maneuverLocation m))
         <$> steps.
Proof.
  destruct (track_keeps_order positions _ (setRoute_orderly steps st0))
    as [H1 H2].
  split; [exact H1|]. rewrite H2. unfold setRoute. cbn [routeSteps].
  rewrite <- list_fmap_compose. reflexivity.
Qed.

End NavigationSessionFacts.

(* ===================================================================== *)
(** * Further properties: shape of the title, the lead, end to end *)
(* ===================================================================== *)

Section TitleShape.
Import JsString Regex TranscriptParser.

Lemma trimStart_clean (s : string) : startsBlank (trimStart s) = false.
Proof.
  induction s as [|a s IH]; cbn; [reflexivity|].
  destruct (isSpace a) eqn:E; [exact IH|cbn; exact E].
Qed.

Lemma trimEnd_keeps_start (s : string) :
  startsBlank s = false -> startsBlank (trimEnd s) = false.
Proof.
  destruct s as [|a s]; [reflexivity|]. cbn [startsBlank trimEnd]. intros E.
  destruct (trimEnd s); [rewrite E|]; cbn; assumption.
Qed.

Lemma trimEnd_clean (s : string) : endsBlank (trimEnd s) = false.
Proof.
  induction s as [|a s IH]; [reflexivity|]. cbn [trimEnd].
  destruct (trimEnd s) as [|b t].
  - destruct (isSpace a) eqn:E; cbn; [reflexivity|exact E].
  - exact IH.
Qed.

Lemma toUpperChar_shape (a : ascii) :
  isLower (toUpperChar a) = false
  /\ (isSpace a = false -> isSpace (toUpperChar a) = false).
Proof.
  destruct a as [[] [] [] [] [] [] [] []]; vm_compute; split;
    first [reflexivity | intros H; exact H].
Qed.

(** X16: whatever the transcript, the title has at least two
    characters, neither starts nor ends with white space, and does not
    start with a lower-case letter. *)
Theorem title_is_trimmed_and_capitalised (transcript : string) :
  (2 <= String.length (extractTitle transcript))%nat
  /\ startsBlank (extractTitle transcript) = false
  /\ endsBlank (extractTitle transcript) = false
  /\ startsLower (extractTitle transcript) = false.
Proof.
  unfold extractTitle.
  destruct (Nat.ltb_spec (String.length (capitalize (strippedTitle transcript))) 2)
    as [Hlt|Hge].
  - vm_compute. repeat split; try reflexivity. lia.
  - split; [exact Hge|].
    pose proof (trimStart_clean (removeAll titleNoise transcript)) as Hs.
    apply trimEnd_keeps_start in Hs.
    pose proof (trimEnd_clean (trimStart (removeAll titleNoise transcript))) as He.
    fold (trim (removeAll titleNoise transcript)) in Hs, He.
    fold (strippedTitle transcript) in Hs, He.
    destruct (strippedTitle transcript) as [|a t]; [auto|].
    unfold capitalize in *. cbn [charAt0 slice1 toUpperCase append] in *.
    cbn [startsBlank startsLower] in *.
    destruct (toUpperChar_shape a) as [Hl Hb].
    split; [apply Hb; exact Hs|]. split; [|exact Hl].
    destruct t as [|b t]; [cbn [String.length] in Hge; lia|exact He].
Qed.

End TitleShape.

Section LeadRoundTrip.
Import JsString Regex TranscriptParser.

Lemma reminderPattern1_at_non_digit (a : ascii) (s : string) :
  isDigit a = false -> matchHere reminderPattern1 (String a s) = None.
Proof. intros Ha. unfold matchHere. cbn. rewrite Ha. reflexivity. Qed.

Lemma exec_reminderPattern1_skips (prefix t : string) :
  hasDigit prefix = false ->
  exec reminderPattern1 (prefix ++ t) = exec reminderPattern1 t.
Proof.
  induction prefix as [|a prefix IH]; intros H; [reflexivity|].
  cbn in H. apply orb_false_elim in H as [Ha Hp].
  change (String a prefix ++ t)%string with (String a (prefix ++ t)).
  cbn [exec]. rewrite (reminderPattern1_at_non_digit a _ Ha). apply IH. exact Hp.
Qed.

Lemma lead_table :
  forallb (fun n => readsLead (ofZ (Z.of_nat n) ++ " minutes before")
                      (Z.of_nat n))
    (seq 0 1440) = true.
Proof. vm_compute. reflexivity. Qed.

(** X17: a lead of up to a day, spoken as "N minutes before" after any
    words without digits, is read back as N. *)
Theorem lead_round_trip (prefix : string) (n : Z) :
  hasDigit prefix = false ->
  0 <= n < 1440 ->
  parsedReminder (parse (prefix ++ ofZ n ++ " minutes before")) = Some n.
Proof.
  intros Hp Hn.
  pose proof lead_table as T. rewrite forallb_forall in T.
  specialize (T (Z.to_nat n)). rewrite Z2Nat.id in T by lia.
  assert (Hin : In (Z.to_nat n) (seq 0 1440)) by (apply in_seq; lia).
  specialize (T Hin). unfold readsLead in T.
  unfold parse. cbn [parsedReminder].
  unfold extractReminderMinutes, reminderPatterns, firstReminder.
  rewrite (exec_reminderPattern1_skips prefix _ Hp).
  destruct (exec reminderPattern1 (ofZ n ++ " minutes before")) as [caps|];
    [|discriminate].
  destruct (getCapture 1 caps) as [c|]; [|discriminate]. cbn in T |- *.
  destruct (parseInt c) as [k|]; [|discriminate].
  apply Z.eqb_eq in T. subst. reflexivity.
Qed.

Lemma lead_round_trip_witness :
  parsedReminder (parse ("remind me to call mom " ++ ofZ 45 ++ " minutes before"))
  = Some 45.
Proof.
  apply (lead_round_trip "remind me to call mom " 45); [vm_compute; reflexivity|lia].
Defined.

End LeadRoundTrip.

Section EndToEnd.
Import JsString TranscriptParser ReminderClock.





End EndToEnd.

Section NavigationProgress.
Import RouteAnnouncer NavigationSession.
Local Open Scope R_scope.

Lemma update_moves_forward (st : NavState) (pos : coord) :
  (currentStepIndex st
   <= currentStepIndex (fst (checkAndAnnounceDirection st pos))
   <= currentStepIndex st + 1)%nat.
Proof.
  destruct (update_shape st pos) as [->|(step & _ & ->)]; [lia|].
  cbn [currentStepIndex]. destruct (bool_decide _); lia.
Qed.

(** X20: along any sequence of position updates the cursor never moves
    back and a step that is announced stays announced. *)
Theorem session_only_moves_forward (positions : list coord) (st : NavState)
    (j : nat) (step : RouteStep) :
  routeSteps st !! j = Some step ->
  announced step = true ->
  (currentStepIndex st <= currentStepIndex (track positions st))%nat
  /\ routeSteps (track positions st) !! j = Some step.
Proof.
  revert st. induction positions as [|pos rest IH]; intros st Hj Ha;
    cbn [track]; [auto|].
  destruct (isNavigating st); [|apply IH; assumption].
  pose proof (update_moves_forward st pos) as Hm.
  pose proof (announced_is_kept st pos j step Hj Ha) as Hk.
  destruct (IH _ Hk Ha) as [H1 H2]. split; [lia|exact H2].
Qed.

Lemma session_only_moves_forward_witness :
  routeSteps
    (track [(77.6, 12.9); (77.6, 12.9)]
       (mkNavState [mkRouteStep "Turn left" 120 (77.59, 12.97) true;
                    mkRouteStep "Turn right" 80 (77.6, 12.9) false]
          1 true true)) !! 0%nat
  = Some (mkRouteStep "Turn left" 120 (77.59, 12.97) true).
Proof.
  exact (proj2 (session_only_moves_forward [(77.6, 12.9); (77.6, 12.9)]
    (mkNavState [mkRouteStep "Turn left" 120 (77.59, 12.97) true;
                 mkRouteStep "Turn right" 80 (77.6, 12.9) false]
       1 true true)
    0 (mkRouteStep "Turn left" 120 (77.59, 12.97) true) eq_refl eq_refl)).
Defined.

End NavigationProgress.
